(** * Incremental profile backup: a shallow embedding of [backupdataupdated.py]

    The script backs up a user's [Desktop] and [Documents] folders to a
    network share or a mapped drive.  This development embeds its four
    pieces of logic and proves (or refutes) the properties stated about them:

    - the skip policy [should_skip];
    - the destination resolver [find_destination];
    - the wait loop of [main];
    - the incremental copy engine [copy_folder_incremental] and the
      orchestrator [main] with the top-level exit code.

    Modelling conventions.  Paths are strings of 8-bit characters and
    [str.lower] is ASCII lowering.  An operating-system call that can raise
    is an oracle returning [option] ([None]: the call raised).  File sizes and
    modification times are integers; the float quotient
    [getsize / (50000 * 50000) > MAX_FILE_SIZE_MB] is the exact comparison
    [getsize > MAX_FILE_SIZE_MB * (50000 * 50000)], which agrees with the
    correctly rounded division for every size a file system can report
    (the nearest size above the bound is a whole byte away, far more than
    the rounding error of the quotient). *)

From Stdlib Require Import ZArith Ascii String List Bool Lia.
From stdpp Require Import base option list gmap strings.

Open Scope string_scope.
Open Scope Z_scope.

(** ** Python string operations *)

Module PyStr.

(** [c.lower()] on one ASCII character. *)
Definition lower_ascii (c : ascii) : ascii :=
  let n := nat_of_ascii c in
  if ((65 <=? n) && (n <=? 90))%nat then ascii_of_nat (n + 32) else c.

(** [s.lower()] *)
Fixpoint lower (s : string) : string :=
  match s with
  | EmptyString => EmptyString
  | String c s' => String (lower_ascii c) (lower s')
  end.

(** [s.startswith(p)] *)
Fixpoint startswith (p s : string) : bool :=
  match p, s with
  | EmptyString, _ => true
  | String _ _, EmptyString => false
  | String a p', String b s' => Ascii.eqb a b && startswith p' s'
  end.

(** [sub in s] *)
Fixpoint contains (sub s : string) : bool :=
  startswith sub s ||
  match s with
  | EmptyString => false
  | String _ s' => contains sub s'
  end.

(** [s.endswith(suffix)] *)
Definition endswith (suffix s : string) : bool :=
  startswith (String.rev suffix) (String.rev s).

(** The truth value of a string: the empty string is falsy. *)
Definition truthy (s : string) : bool :=
  match s with EmptyString => false | String _ _ => true end.

End PyStr.

(** ** Configuration constants *)

Definition MAPPED_ROOT : string := "Z:\\".
Definition UNC_ROOT : string := "\\server\Unity Exploration\IT Department".
Definition BACKUP_FOLDER_NAME : string := "BACKUP".
Definition USER_FOLDERS : list string := ["Desktop"; "Documents"].
Definition RETRY_INTERVAL_SECONDS : Z := 60.
Definition DRIVE_RETRY_MINUTES : Z := 15.
Definition MAX_FILE_SIZE_MB : Z := 50000.
Definition OUTLOOK_FOLDERS : list string :=
  ["Documents\Outlook"; "Documents\OutlookFiles"].
Definition PST_EXTENSION : string := ".pst".

(** The substrings tested by the first rule of [should_skip]. *)
Definition SKIP_SUBSTRINGS : list string :=
  ["appdata"; "program files"; "windows"; "microsoft"; "temp"].

(** The divisor written in [should_skip]: [50000 * 50000]. *)
Definition SIZE_DIVISOR : Z := 50000 * 50000.

(** ** What the operating system answers about one path *)

Record os_view := OsView {
  os_exists : string -> option bool;  (* os.path.exists; None: it raised *)
  os_isfile : string -> bool;         (* os.path.isfile *)
  os_getsize : string -> option Z     (* os.path.getsize; None: it raised *)
}.

(** ** Skip policy *)

Section SkipPolicy.

Variable os : os_view.

(** [any(skip in lower for skip in [...])] *)
Definition has_skip_substring (path : string) : bool :=
  existsb (fun skip => PyStr.contains skip (PyStr.lower path)) SKIP_SUBSTRINGS.

(** [any(outlook_folder.lower() in path.lower() for ...)] *)
Definition in_outlook_folder (folders : list string) (path : string) : bool :=
  existsb (fun d => PyStr.contains (PyStr.lower d) (PyStr.lower path)) folders.

(** The body of the [if os.path.isfile(path):] block: [Some true] when the
    block returns [True], [None] when control falls through. *)
Definition size_rule (path : string) : option bool :=
  if os_isfile os path then
    match os_getsize os path with
    | Some size =>
        if (MAX_FILE_SIZE_MB * SIZE_DIVISOR <? size)
           && negb (PyStr.endswith PST_EXTENSION path)
        then Some true else None
    | None => Some true
    end
  else None.

(** [should_skip], with the Outlook folder list as an argument. *)
Definition should_skip_with (folders : list string) (path : string) : bool :=
  if has_skip_substring path then true
  else if PyStr.endswith ".lnk" path then true
  else match size_rule path with
       | Some b => b
       | None =>
           if in_outlook_folder folders path then
             if PyStr.endswith PST_EXTENSION path then false else false
           else false
       end.

Definition should_skip (path : string) : bool :=
  should_skip_with OUTLOOK_FOLDERS path.

(** The same predicate with the final Outlook clause deleted. *)
Definition should_skip_no_outlook (path : string) : bool :=
  if has_skip_substring path then true
  else if PyStr.endswith ".lnk" path then true
  else match size_rule path with
       | Some b => b
       | None => false
       end.

End SkipPolicy.

(** ** Paths *)

Module Path.

Definition is_sep (c : ascii) : bool :=
  (Ascii.eqb c "\" || Ascii.eqb c "/")%char.

Fixpoint last_char (s : string) : option ascii :=
  match s with
  | EmptyString => None
  | String c EmptyString => Some c
  | String _ s' => last_char s'
  end.

(** A bare drive specification such as [Z:]. *)
Definition is_bare_drive (s : string) : bool :=
  match s with
  | String _ (String ":" EmptyString) => true
  | _ => false
  end.

(** [os.path.join(a, b)] on Windows, for a second component that is
    relative and carries no drive (a user name, a folder name, a file
    name): a separator is inserted unless the first component is empty, is
    a bare drive, or already ends with one. *)
Definition join (a b : string) : string :=
  match last_char a with
  | None => b
  | Some c =>
      if is_sep c || is_bare_drive a then a +:+ b
      else a +:+ "\" +:+ b
  end.

End Path.

(** ** Destination resolver *)

Section Resolver.

Variable os : os_view.

Definition is_drive_available (path : string) : bool :=
  match os_exists os path with
  | Some b => b
  | None => false
  end.

Definition find_destination (username : string) : option string :=
  let unc_user := Path.join UNC_ROOT username in
  if PyStr.truthy UNC_ROOT && is_drive_available unc_user
  then Some (Path.join unc_user BACKUP_FOLDER_NAME)
  else
    let mapped_user := Path.join MAPPED_ROOT username in
    if is_drive_available mapped_user
    then Some (Path.join mapped_user BACKUP_FOLDER_NAME)
    else if is_drive_available MAPPED_ROOT
    then Some (Path.join MAPPED_ROOT BACKUP_FOLDER_NAME)
    else None.

(** The candidates of the resolver in priority order. *)
Definition candidates (username : string) : list string :=
  [Path.join UNC_ROOT username; Path.join MAPPED_ROOT username; MAPPED_ROOT].

(** The resolver as the specification words it: the first reachable
    candidate, joined with the backup folder name. *)
Definition first_reachable (username : string) : option string :=
  match List.find is_drive_available (candidates username) with
  | Some c => Some (Path.join c BACKUP_FOLDER_NAME)
  | None => None
  end.

End Resolver.

(** ** More path helpers used by the copy engine *)

Module PathMore.

(** [s.rstrip("\\/")] *)
Fixpoint rstrip_seps (s : string) : string :=
  match s with
  | EmptyString => EmptyString
  | String c s' =>
      match rstrip_seps s' with
      | EmptyString => if Path.is_sep c then EmptyString else String c EmptyString
      | r => String c r
      end
  end.

Definition strip_drive (s : string) : string :=
  match s with
  | String _ (String ":" r) => r
  | _ => s
  end.

(** [cur] is the text after the last separator met so far. *)
Fixpoint after_last_sep (cur s : string) : string :=
  match s with
  | EmptyString => cur
  | String c s' =>
      if Path.is_sep c then after_last_sep s' s' else after_last_sep cur s'
  end.

(** [os.path.basename(p)] on Windows for a path with a drive letter or
    none: the text after the last separator of the part behind the drive. *)
Definition basename (p : string) : string :=
  let q := strip_drive p in after_last_sep q q.

(** [os.path.relpath(root, src)] for a [root] that [os.walk(src)] yields,
    given as the directory names that lead from [src] to [root]. *)
Definition relpath (rel : list string) : string :=
  match rel with
  | [] => "."
  | _ => String.concat "\" rel
  end.

End PathMore.

(** ** The world the script runs in *)

(** Metadata of a regular file. *)
Record fstat := FStat { st_mtime : Z; st_size : Z }.

(** A file name listed by [os.walk], with what the operating system answers
    about it. *)
Record srcfile := SrcFile {
  s_isfile : bool;         (* os.path.isfile *)
  s_stat : option fstat;   (* None: getsize and getmtime raise *)
  s_readable : bool        (* false: shutil.copy2 raises *)
}.

(** A source directory: its files and its sub-directories. *)
#[warnings="-register-all"]
Inductive tree :=
| Node (files : list (string * srcfile)) (subdirs : list (string * tree)).

(** The regular files of the destination, by full path.  Directories are not
    tracked: [os.makedirs] succeeds or raises as the environment says, and
    the path a file is mirrored to is a regular file or nothing. *)
Abbreviation dest_files := (gmap string fstat).

Inductive event :=
| EvProbe (t : Z)                  (* find_destination called at clock t *)
| EvSleep (secs : Z)               (* time.sleep *)
| EvMakedirs (p : string)          (* os.makedirs(p, exist_ok=True) *)
| EvRobocopy (cmd : list string).  (* subprocess.run(cmd) *)

Record world := World {
  clock : Z;               (* wall clock, in seconds *)
  trace : list event;      (* calls made so far, latest first *)
  dest : dest_files
}.

(** Everything the script reads from its environment.  The source trees do
    not change during a run and lie outside the destination. *)
Record env := Env {
  getuser : option string;             (* getpass.getuser(); None: it raised *)
  userprofile : string;                (* os.getenv("USERPROFILE") or expanduser("~") *)
  source : string -> option tree;      (* the tree at a source path; None: no such path *)
  reach : Z -> string -> option bool;  (* os.path.exists on a destination root at clock t *)
  makedirs_ok : string -> bool;        (* os.makedirs(p, exist_ok=True) does not raise *)
  robocopy_spawns : bool;              (* subprocess.run(["robocopy"]) does not raise *)
  robocopy_run : list string -> dest_files -> option dest_files
                                       (* what the robocopy command does; None: run raised *)
}.

(** ** A state and exception monad *)

Inductive outcome (A : Type) :=
| Ok (a : A)
| Raised       (* an Exception propagates *)
| Diverged.    (* the fuel of a loop ran out *)
Arguments Ok {A} a.
Arguments Raised {A}.
Arguments Diverged {A}.

Definition M (A : Type) : Type := world -> outcome (A * world).

Definition ret {A} (a : A) : M A := fun w => Ok (a, w).

Definition bind {A B} (m : M A) (k : A -> M B) : M B :=
  fun w => match m w with
           | Ok (a, w') => k a w'
           | Raised => Raised
           | Diverged => Diverged
           end.

Declare Scope m_scope.
Delimit Scope m_scope with M.
Notation "x <- m ;; k" := (bind m (fun x => k))
  (at level 100, m at level 99, k at level 100, right associativity) : m_scope.
Notation "m ;;; k" := (bind m (fun _ => k))
  (at level 100, k at level 100, right associativity) : m_scope.

Definition raise {A} : M A := fun _ => Raised.
Definition now : M Z := fun w => Ok (clock w, w).
Definition log (e : event) : M unit :=
  fun w => Ok (tt, World (clock w) (e :: trace w) (dest w)).
Definition sleep (secs : Z) : M unit :=
  fun w => Ok (tt, World (clock w + secs) (EvSleep secs :: trace w) (dest w)).
Definition modify_dest (f : dest_files -> dest_files) : M unit :=
  fun w => Ok (tt, World (clock w) (trace w) (f (dest w))).

(** ** Availability waiter: the [while] loop of [main] *)

(** [if dest_root:] on the value [find_destination] returned. *)
Definition truthy_path (d : option string) : bool :=
  match d with
  | Some p => PyStr.truthy p
  | None => false
  end.

Section Waiter.

(** What the resolver answers when called at a given clock reading, and the
    poll interval. *)
Variable resolve : Z -> option string.
Variable interval : Z.

Definition probe : M (option string) :=
  fun w => Ok (resolve (clock w),
               World (clock w) (EvProbe (clock w) :: trace w) (dest w)).

(** [dest_root] is the value the variable holds when the loop is entered. *)
Fixpoint wait_loop (fuel : nat) (deadline : Z) (dest_root : option string)
  : M (option string) :=
  match fuel with
  | O => fun _ => Diverged
  | S fuel' =>
      (t <- now ;;
       if t <? deadline then
         d <- probe ;;
         if truthy_path d then ret d
         else sleep interval ;;; wait_loop fuel' deadline d
       else ret dest_root)%M
  end.

(** The loop with its deadline, [datetime.now() + timeout], and fuel for
    one iteration per second of the timeout. *)
Definition wait_for_destination (timeout : Z) : M (option string) :=
  (t0 <- now ;;
   wait_loop (S (Z.to_nat timeout)) (t0 + timeout) None)%M.

End Waiter.

(** ** Incremental copy engine *)

(** The arguments of the robocopy command line. *)
Definition robocopy_cmd (src target : string) : list string :=
  ["robocopy"; src; target;
   "/E"; "/XO"; "/XN"; "/XC";
   "/NFL"; "/NDL"; "/NJH"; "/NJS"; "/NP";
   "/XF"; "*.exe"; "*.msi"; "*.bat"; "*.cmd"; "*.dll";
   "/XD"; "AppData"; "Program Files"; "Windows"; "Temp"; "Desktop"].

(** What [should_skip] is told about a file that [os.walk] listed. *)
Definition src_view (sf : srcfile) : os_view :=
  OsView (fun _ => Some true)
         (fun _ => s_isfile sf)
         (fun _ => st_size <$> s_stat sf).

(** The condition [not os.path.exists(dst_f) or getmtime(src_f) >
    getmtime(dst_f)]; [None] when [getmtime(src_f)] raised. *)
Definition copy_needed (d : dest_files) (sf : srcfile) (dst_f : string)
  : option bool :=
  match d !! dst_f with
  | None => Some true
  | Some df =>
      match s_stat sf with
      | Some st => Some (st_mtime df <? st_mtime st)
      | None => None
      end
  end.

(** [shutil.copy2(src_f, dst_f)]: data and metadata go to the destination;
    [None] when it raised. *)
Definition copy2 (sf : srcfile) (dst_f : string) (d : dest_files)
  : option dest_files :=
  match s_stat sf with
  | Some st => if s_readable sf then Some (<[dst_f := st]> d) else None
  | None => None
  end.

(** The [try: ... except Exception: pass] block for one file. *)
Definition backup_file (sf : srcfile) (dst_f : string) (d : dest_files)
  : dest_files :=
  match copy_needed d sf dst_f with
  | Some true =>
      match copy2 sf dst_f d with
      | Some d' => d'
      | None => d
      end
  | _ => d
  end.

(** The body of [for f in files:] for one file. *)
Definition visit_file (root target_root : string) (d : dest_files)
  (entry : string * srcfile) : dest_files :=
  let src_f := Path.join root (fst entry) in
  if should_skip (src_view (snd entry)) src_f then d
  else backup_file (snd entry) (Path.join target_root (fst entry)) d.

Definition copy_files (root target_root : string)
  (files : list (string * srcfile)) (d : dest_files) : dest_files :=
  fold_left (visit_file root target_root) files d.

(** One triple of [os.walk(src)]: the directory path, the names leading to it
    from [src], and its files. *)
Definition walk_entry : Type := string * list string * list (string * srcfile).

(** [os.walk(src)], top-down. *)
Fixpoint os_walk (root : string) (rel : list string) (t : tree)
  : list walk_entry :=
  match t with
  | Node files subdirs =>
      (root, rel, files) ::
      flat_map (fun sub => os_walk (Path.join root (fst sub))
                                   (rel ++ [fst sub]) (snd sub)) subdirs
  end.

(** [os.path.join(target, rel) if rel != "." else target] *)
Definition target_root_of (target : string) (rel : list string) : string :=
  let r := PathMore.relpath rel in
  if String.eqb r "." then target else Path.join target r.

Section Engine.

Variable e : env.

Definition makedirs (p : string) : M unit :=
  if makedirs_ok e p then log (EvMakedirs p) else raise.

Definition robocopy_available : bool := robocopy_spawns e.

(** The [try: subprocess.run(cmd, ...) except Exception: pass] block. *)
Definition run_robocopy (cmd : list string) : M unit :=
  (log (EvRobocopy cmd) ;;;
   modify_dest (fun d => match robocopy_run e cmd d with
                         | Some d' => d'
                         | None => d
                         end))%M.

(** The fallback loop over the triples of [os.walk(src)]. *)
Fixpoint fallback_copy (target : string) (entries : list walk_entry)
  : M unit :=
  match entries with
  | [] => ret tt
  | (root, rel, files) :: rest =>
      let target_root := target_root_of target rel in
      (makedirs target_root ;;;
       modify_dest (copy_files root target_root files) ;;;
       fallback_copy target rest)%M
  end.

Definition copy_folder_incremental (src dst : string) : M unit :=
  match source e src with
  | None => ret tt
  | Some t =>
      let folder_name := PathMore.basename (PathMore.rstrip_seps src) in
      let target := Path.join dst folder_name in
      (makedirs target ;;;
       if robocopy_available then run_robocopy (robocopy_cmd src target)
       else fallback_copy target (os_walk src [] t))%M
  end.

(** The destination roots as [find_destination] sees them at clock [t]. *)
Definition dest_view (t : Z) : os_view :=
  OsView (reach e t) (fun _ => false) (fun _ => None).

Fixpoint copy_all (srcs : list string) (dest_root : string) : M unit :=
  match srcs with
  | [] => ret tt
  | src :: rest =>
      (copy_folder_incremental src dest_root ;;; copy_all rest dest_root)%M
  end.

Definition src_folders : list string :=
  List.filter (fun p => bool_decide (is_Some (source e p)))
              (List.map (Path.join (userprofile e)) USER_FOLDERS).

Definition main : M Z :=
  match getuser e with
  | None => raise
  | Some username =>
      match src_folders with
      | [] => ret 0
      | _ :: _ =>
          (dest_root <- wait_for_destination
                          (fun t => find_destination (dest_view t) username)
                          RETRY_INTERVAL_SECONDS
                          (DRIVE_RETRY_MINUTES * 60) ;;
           match dest_root with
           | Some p =>
               if PyStr.truthy p then
                 makedirs p ;;; copy_all src_folders p ;;; ret 0
               else ret 1
           | None => ret 1
           end)%M
      end
  end.

(** The [__main__] block: [sys.exit(main())], and [sys.exit(99)] when an
    [Exception] reaches the top.  [None]: the loop fuel ran out. *)
Definition exit_code (w : world) : option Z :=
  match main w with
  | Ok (code, _) => Some code
  | Raised => Some 99
  | Diverged => None
  end.

End Engine.

(** ** Concrete inputs used below *)

(** A 60 GB disk image in the Documents folder. *)
Definition big_file_view : os_view :=
  OsView (fun _ => Some true) (fun _ => true) (fun _ => Some 60000000000).
Definition big_file_path : string := "C:\Users\bob\Documents\disk.img".

(** An Outlook archive of 200 TB, above even the threshold the code uses. *)
Definition huge_pst_view : os_view :=
  OsView (fun _ => Some true) (fun _ => true) (fun _ => Some 200000000000000).

(** The share holds the folder of user [bob] and nothing below it. *)
Definition bob_share_view : os_view :=
  OsView (fun p => Some (String.eqb p "\\server\Unity Exploration\IT Department\bob"))
         (fun _ => false) (fun _ => None).

(** Both the share and the mapped drive hold a folder for [bob]. *)
Definition both_roots_view : os_view :=
  OsView (fun p => Some (String.eqb p "\\server\Unity Exploration\IT Department\bob"
                         || String.eqb p "Z:\\bob"))
         (fun _ => false) (fun _ => None).

(** The trace left by [n] failed attempts that started at clock [t]: a probe
    and a sleep for each. *)
Fixpoint failed_attempts (interval : Z) (n : nat) (t : Z) (tr : list event)
  : list event :=
  match n with
  | O => tr
  | S n' =>
      failed_attempts interval n' (t + interval) (EvSleep interval :: EvProbe t :: tr)
  end.

(** A resolver that never finds the destination, and one that finds it from
    the third minute on. *)
Definition never_resolves : Z -> option string := fun _ => None.
Definition resolves_from_180 : Z -> option string :=
  fun t => if t <? 180 then None else Some "Z:\\BACKUP".

Definition start_world : world := World 0 [] ∅.

(** A small Documents folder and an environment without robocopy in which
    the mapped drive shows up after two minutes. *)
Definition docs_tree : tree :=
  Node [("report.txt", SrcFile true (Some (FStat 100 2048)) true);
        ("Start.lnk", SrcFile true (Some (FStat 50 10)) true);
        ("locked.pst", SrcFile true (Some (FStat 70 900)) false)]
       [("Work", Node [("plan.doc", SrcFile true (Some (FStat 200 4096)) true)] [])].

Definition demo_env : env :=
  Env (Some "bob") "C:\Users\bob"
      (fun p => if String.eqb p "C:\Users\bob\Documents" then Some docs_tree else None)
      (fun t p => Some (String.eqb p "Z:\\bob" && (120 <=? t)))
      (fun _ => true)
      false
      (fun _ d => Some d).

(** The world after a first backup of the Documents folder. *)
Definition after_first_run : world :=
  match copy_folder_incremental demo_env "C:\Users\bob\Documents" "Z:\\bob\BACKUP"
          start_world with
  | Ok (_, w) => w
  | _ => start_world
  end.

(** ** Notions used to state idempotence *)

(** Every file of [d] is still in [d'], and no older there. *)
Definition dest_le (d d' : dest_files) : Prop :=
  forall p df, d !! p = Some df ->
               exists df', d' !! p = Some df' /\ st_mtime df <= st_mtime df'.

(** Visiting the file again changes nothing: it is skipped, it cannot be
    copied, or its destination is at least as new. *)
Definition settled_file (root target_root : string) (d : dest_files)
  (entry : string * srcfile) : Prop :=
  should_skip (src_view (snd entry)) (Path.join root (fst entry)) = true \/
  (forall d0 p, copy2 (snd entry) p d0 = None) \/
  exists st df, s_stat (snd entry) = Some st /\
                d !! Path.join target_root (fst entry) = Some df /\
                st_mtime st <= st_mtime df.

Definition settled_dir (target : string) (d : dest_files) (en : walk_entry) : Prop :=
  Forall (settled_file (fst (fst en)) (target_root_of target (snd (fst en))) d)
         (snd en).

(** The destination after the fallback loop, when no [makedirs] raises. *)
Definition visit_dir (target : string) (d : dest_files) (en : walk_entry)
  : dest_files :=
  copy_files (fst (fst en)) (target_root_of target (snd (fst en))) (snd en) d.

(** Every [os.makedirs] call of the fallback loop succeeds. *)
Definition dirs_ok (e : env) (target : string) (entries : list walk_entry) : bool :=
  forallb (fun en => makedirs_ok e (target_root_of target (snd (fst en)))) entries.

(** ** Delegated mode: what the robocopy command line excludes *)

(** The values that follow a switch, up to the next switch. *)
Fixpoint take_values (args : list string) : list string :=
  match args with
  | [] => []
  | a :: rest => if PyStr.startswith "/" a then [] else a :: take_values rest
  end.

Fixpoint switch_values (flag : string) (args : list string) : list string :=
  match args with
  | [] => []
  | a :: rest =>
      if String.eqb a flag then take_values rest else switch_values flag rest
  end.

(** The options come after the program name, the source and the target. *)
Definition xd_names (cmd : list string) : list string :=
  switch_values "/XD" (skipn 3 cmd).
Definition xf_patterns (cmd : list string) : list string :=
  switch_values "/XF" (skipn 3 cmd).

(** A name against an exclusion entry: [*rest] matches a name that ends
    with [rest], any other entry matches the same name; case is ignored, as
    Windows does for file names. *)
Definition name_matches (pattern name : string) : bool :=
  match pattern with
  | String "*" rest => PyStr.endswith (PyStr.lower rest) (PyStr.lower name)
  | _ => String.eqb (PyStr.lower pattern) (PyStr.lower name)
  end.

(** The verdict of the command for the file [f] that lies below the source
    folder in the directories [rel]: robocopy leaves it out when one of
    these directories bears a name listed after [/XD], or when [f] matches
    a pattern listed after [/XF]. *)
Definition delegated_excludes (cmd : list string) (rel : list string) (f : string)
  : bool :=
  existsb (fun d => existsb (fun x => name_matches x d) (xd_names cmd)) rel
  || existsb (fun x => name_matches x f) (xf_patterns cmd).

(** The path under which the fallback loop meets that file. *)
Definition walk_path (src : string) (rel : list string) (f : string) : string :=
  Path.join (fold_left Path.join rel src) f.

(** The directory names that both modes exclude. *)
Definition SHARED_EXCLUDED_DIRS : list string :=
  ["AppData"; "Program Files"; "Windows"; "Temp"].

Definition documents : string := "C:\Users\bob\Documents".
Definition documents_cmd : list string :=
  robocopy_cmd documents "Z:\\bob\BACKUP\Documents".



(** ** Inputs for the further properties *)

(** A file whose size cannot be read. *)
Definition vanished_file_view : os_view :=
  OsView (fun _ => Some true) (fun _ => true) (fun _ => None).

(** Probing the share raises; the mapped drive holds the folder of [bob]. *)
Definition broken_share_view : os_view :=
  OsView (fun p => if String.eqb p "Z:\\bob" then Some true else None)
         (fun _ => false) (fun _ => None).


(** The folder below [dst] that receives the copy of [src]. *)
Definition target_of (src dst : string) : string :=
  Path.join dst (PathMore.basename (PathMore.rstrip_seps src)).



(** A report that is older at the source than its copy, a new file, and the
    destination that already holds the newer copy and a file of its own. *)
Definition old_docs_tree : tree :=
  Node [("report.txt", SrcFile true (Some (FStat 100 2048)) true);
        ("new.txt", SrcFile true (Some (FStat 300 1)) true)] [].

Definition old_docs_env : env :=
  Env (Some "bob") "C:\Users\bob"
      (fun p => if String.eqb p "C:\Users\bob\Documents" then Some old_docs_tree else None)
      (fun _ _ => Some true)
      (fun _ => true) false (fun _ d => Some d).

Definition used_world : world :=
  World 0 []
        {[ "Z:\\bob\BACKUP\Documents\report.txt" := FStat 500 4096;
           "Z:\\bob\BACKUP\Documents\kept.txt" := FStat 1 1 ]}.

Definition after_used_run : world :=
  match copy_folder_incremental old_docs_env "C:\Users\bob\Documents" "Z:\\bob\BACKUP"
          used_world with
  | Ok (_, w) => w
  | _ => used_world
  end.

(** Robocopy is present but every run of it raises. *)
Definition failing_robocopy_env : env :=
  Env (Some "bob") "C:\Users\bob"
      (fun p => if String.eqb p "C:\Users\bob\Documents" then Some docs_tree else None)
      (fun _ _ => Some true)
      (fun _ => true) true (fun _ _ => None).

(** The destination root cannot be created. *)
Definition readonly_dest_env : env :=
  Env (Some "bob") "C:\Users\bob"
      (fun p => if String.eqb p "C:\Users\bob\Documents" then Some docs_tree else None)
      (fun _ _ => Some true)
      (fun _ => false) false (fun _ d => Some d).

(** ** Plain names *)

Fixpoint all_chars (P : ascii -> bool) (s : string) : bool :=
  match s with
  | EmptyString => true
  | String c s' => P c && all_chars P s'
  end.

(** A name of one path component: not empty, without separator or colon. *)
Definition plain_name (name : string) : bool :=
  PyStr.truthy name &&
  all_chars (fun c => negb (Path.is_sep c) && negb (Ascii.eqb c ":")) name.

(** The string ends with a separator. *)
Definition ends_sep (s : string) : bool :=
  match Path.last_char s with
  | Some c => Path.is_sep c
  | None => false
  end.

(** The profile of a user whose name contains a denylisted word. *)
Definition templeton_env : env :=
  Env (Some "Templeton") "C:\Users\Templeton"
      (fun p => if String.eqb p "C:\Users\Templeton\Documents" then Some docs_tree else None)
      (fun _ _ => Some true)
      (fun _ => true) false (fun _ d => Some d).

(** The last character is neither a separator nor a colon. *)
Definition ends_plain (s : string) : bool :=
  match Path.last_char s with
  | Some c => negb (Path.is_sep c) && negb (Ascii.eqb c ":")
  | None => false
  end.

(** Directory names as [os.walk] yields them: plain, and never [.]. *)
Definition walk_names (rel : list string) : Prop :=
  Forall (fun d => plain_name d = true /\ d <> ".") rel.

Definition after_templeton_run : world :=
  match copy_folder_incremental templeton_env "C:\Users\Templeton\Documents"
          "Z:\\Templeton\BACKUP" start_world with
  | Ok (_, w) => w
  | _ => start_world
  end.

(** * Properties *)

(** ** The definitions on concrete inputs *)

Example MAPPED_ROOT_length : String.length MAPPED_ROOT = 4%nat.
Proof. reflexivity. Qed.

Example lower_profile : PyStr.lower "C:\Users\Bob\AppData" = "c:\users\bob\appdata".
Proof. reflexivity. Qed.

Example endswith_lnk : PyStr.endswith ".lnk" "C:\Users\bob\Desktop\Editor.lnk" = true.
Proof. reflexivity. Qed.

Example endswith_upper_lnk : PyStr.endswith ".lnk" "C:\Users\bob\Desktop\EDITOR.LNK" = false.
Proof. reflexivity. Qed.

Example join_unc :
  Path.join UNC_ROOT "bob" = "\\server\Unity Exploration\IT Department\bob".
Proof. reflexivity. Qed.

Example join_mapped : Path.join MAPPED_ROOT "bob" = "Z:\\bob".
Proof. reflexivity. Qed.

Example join_bare_drive : Path.join "Z:" "bob" = "Z:bob".
Proof. reflexivity. Qed.

Example basename_documents :
  PathMore.basename (PathMore.rstrip_seps "C:\Users\bob\Documents\/") = "Documents".
Proof. reflexivity. Qed.

Example skip_appdata :
  should_skip big_file_view "C:\Users\bob\AppData\Roaming\x.ini" = true.
Proof. reflexivity. Qed.

Example skip_template_by_substring :
  should_skip huge_pst_view "C:\Users\bob\Documents\template.pst" = true.
Proof. reflexivity. Qed.

Example skip_unreadable_size :
  should_skip (OsView (fun _ => Some true) (fun _ => true) (fun _ => None))
              "C:\Users\bob\Documents\a.txt" = true.
Proof. reflexivity. Qed.

Example keep_small_file :
  should_skip (OsView (fun _ => Some true) (fun _ => true) (fun _ => Some 10))
              "C:\Users\bob\Documents\a.txt" = false.
Proof. reflexivity. Qed.

Example walk_documents :
  List.map (fun en => (fst (fst en), target_root_of "T" (snd (fst en))))
           (os_walk documents [] docs_tree)
  = [("C:\Users\bob\Documents", "T"); ("C:\Users\bob\Documents\Work", "T\Work")].
Proof. reflexivity. Qed.

(** ** Strings *)

Lemma startswith_refl s : PyStr.startswith s s = true.
Proof.
  induction s as [|c s IH]; simpl; [reflexivity|].
  rewrite Ascii.eqb_refl. exact IH.
Qed.

Lemma startswith_app p s t :
  PyStr.startswith p s = true -> PyStr.startswith p (s +:+ t) = true.
Proof.
  revert s. induction p as [|a p IH]; intros [|b s]; simpl; try easy.
  intros [Hab Hp]%andb_true_iff. rewrite Hab. simpl. now apply IH.
Qed.

Lemma contains_refl s : PyStr.contains s s = true.
Proof. destruct s; simpl; [reflexivity|]. now rewrite Ascii.eqb_refl, startswith_refl. Qed.

Lemma contains_app_l sub s t :
  PyStr.contains sub s = true -> PyStr.contains sub (s +:+ t) = true.
Proof.
  induction s as [|c s IH]; simpl.
  - rewrite orb_false_r. destruct sub; [|discriminate].
    intros _. destruct t; reflexivity.
  - intros [H|H]%orb_true_iff.
    + change (String c s +:+ t) with (String c (s +:+ t)).
      apply (startswith_app _ (String c s) t) in H.
      change (String c s +:+ t) with (String c (s +:+ t)) in H.
      simpl. simpl in H. now rewrite H.
    + change (String c s +:+ t) with (String c (s +:+ t)). simpl.
      rewrite (IH H). apply orb_true_r.
Qed.

Lemma contains_app_r sub s t :
  PyStr.contains sub t = true -> PyStr.contains sub (s +:+ t) = true.
Proof.
  intros H. induction s as [|c s IH]; [exact H|].
  change (String c s +:+ t) with (String c (s +:+ t)). simpl.
  rewrite IH. apply orb_true_r.
Qed.

Lemma lower_app s t : PyStr.lower (s +:+ t) = PyStr.lower s +:+ PyStr.lower t.
Proof.
  induction s as [|c s IH]; [reflexivity|].
  change (String c s +:+ t) with (String c (s +:+ t)). simpl.
  now rewrite IH.
Qed.

(** A path cannot end with both [.pst] and [.lnk]. *)
Lemma endswith_pst_not_lnk path :
  PyStr.endswith PST_EXTENSION path = true -> PyStr.endswith ".lnk" path = false.
Proof.
  unfold PyStr.endswith, PST_EXTENSION.
  change (String.rev ".pst") with "tsp.". change (String.rev ".lnk") with "knl.".
  destruct (String.rev path) as [|c r]; cbn [PyStr.startswith]; [discriminate|].
  intros [Hc _]%andb_true_iff. apply Ascii.eqb_eq in Hc. subst c. reflexivity.
Qed.

(** ** Skip policy *)

Section SkipPolicyFacts.

Variable os : os_view.

(** The size rule never fires for a [.pst] path whose size can be read. *)
Lemma size_rule_pst path sz :
  PyStr.endswith PST_EXTENSION path = true ->
  os_getsize os path = Some sz ->
  size_rule os path = None.
Proof.
  intros Hpst Hsz. unfold size_rule. rewrite Hsz, Hpst.
  rewrite andb_false_r. now destruct (os_isfile os path).
Qed.

Lemma should_skip_with_no_outlook folders path :
  should_skip_with os folders path = should_skip_no_outlook os path.
Proof.
  unfold should_skip_with, should_skip_no_outlook.
  destruct (has_skip_substring path); [reflexivity|].
  destruct (PyStr.endswith ".lnk" path); [reflexivity|].
  destruct (size_rule os path); [reflexivity|].
  destruct (in_outlook_folder folders path); [|reflexivity].
  now destruct (PyStr.endswith PST_EXTENSION path).
Qed.

(** The threshold the code applies to a regular, readable, non-archive
    file that no earlier rule caught: 125 000 000 000 000 bytes. *)
Lemma should_skip_size_threshold path sz :
  has_skip_substring path = false ->
  PyStr.endswith ".lnk" path = false ->
  PyStr.endswith PST_EXTENSION path = false ->
  os_isfile os path = true ->
  os_getsize os path = Some sz ->
  should_skip os path = (125000000000000 <? sz).
Proof.
  intros H1 H2 H3 H4 H5. unfold should_skip.
  rewrite should_skip_with_no_outlook. unfold should_skip_no_outlook, size_rule.
  rewrite H1, H2, H3, H4, H5. simpl.
  change (MAX_FILE_SIZE_MB * SIZE_DIVISOR) with 125000000000000.
  rewrite andb_true_r. now destruct (125000000000000 <? sz).
Qed.

End SkipPolicyFacts.

(** C1.  The claim is that a regular file larger than [MAX_FILE_SIZE_MB]
    megabytes, not a [.pst] and caught by no earlier rule, is skipped.  The
    code divides by [50000 * 50000] instead of the bytes in a megabyte: a
    60 GB file (more than 50 000 MB, decimal or binary) that meets every
    condition of the claim is not skipped. *)
Theorem should_skip_misses_large_file :
  MAX_FILE_SIZE_MB * 1000000 < 60000000000 /\
  MAX_FILE_SIZE_MB * 1048576 < 60000000000 /\
  os_isfile big_file_view big_file_path = true /\
  os_getsize big_file_view big_file_path = Some 60000000000 /\
  PyStr.endswith PST_EXTENSION big_file_path = false /\
  has_skip_substring big_file_path = false /\
  PyStr.endswith ".lnk" big_file_path = false /\
  should_skip big_file_view big_file_path = false.
Proof. repeat split; vm_compute; reflexivity. Qed.

(** C3.  A path that ends with [.pst], lies under a configured Outlook
    folder and contains no denylisted substring is not skipped, whatever its
    size is, also above the maximum. *)
Theorem pst_in_outlook_not_skipped (os : os_view) (path : string) (sz : Z) :
  PyStr.endswith PST_EXTENSION path = true ->
  in_outlook_folder OUTLOOK_FOLDERS path = true ->
  has_skip_substring path = false ->
  os_getsize os path = Some sz ->
  should_skip os path = false.
Proof.
  intros Hpst _ Hden Hsz. unfold should_skip.
  rewrite should_skip_with_no_outlook. unfold should_skip_no_outlook.
  rewrite Hden, (endswith_pst_not_lnk _ Hpst), (size_rule_pst os _ _ Hpst Hsz).
  reflexivity.
Qed.

Lemma pst_in_outlook_not_skipped_witness :
  MAX_FILE_SIZE_MB * SIZE_DIVISOR < 200000000000000 /\
  should_skip huge_pst_view "C:\Users\bob\Documents\Outlook\mail.pst" = false.
Proof.
  split; [reflexivity|].
  apply (pst_in_outlook_not_skipped huge_pst_view _ 200000000000000);
    reflexivity.
Defined.

(** C10.  The verdict of [should_skip] does not depend on the Outlook folder
    list: it equals the predicate without the final clause, so an oversized
    [.pst] outside the Outlook folders is not skipped either. *)
Theorem outlook_clause_irrelevant (os : os_view) (path : string) :
  (forall folders folders' : list string,
      should_skip_with os folders path = should_skip_with os folders' path) /\
  should_skip os path = should_skip_no_outlook os path /\
  (forall sz : Z,
      PyStr.endswith PST_EXTENSION path = true ->
      in_outlook_folder OUTLOOK_FOLDERS path = false ->
      has_skip_substring path = false ->
      os_getsize os path = Some sz ->
      MAX_FILE_SIZE_MB * SIZE_DIVISOR < sz ->
      should_skip os path = false).
Proof.
  split; [|split].
  - intros f f'. now rewrite !should_skip_with_no_outlook.
  - apply should_skip_with_no_outlook.
  - intros sz Hpst _ Hden Hsz _. unfold should_skip.
    rewrite should_skip_with_no_outlook. unfold should_skip_no_outlook.
    rewrite Hden, (endswith_pst_not_lnk _ Hpst), (size_rule_pst os _ _ Hpst Hsz).
    reflexivity.
Qed.

Lemma outlook_clause_irrelevant_witness :
  should_skip huge_pst_view "D:\archive\old.pst" = false.
Proof.
  apply (proj2 (proj2 (outlook_clause_irrelevant huge_pst_view "D:\archive\old.pst"))
           200000000000000); reflexivity.
Defined.

(** ** Destination resolver *)

Lemma last_char_cons c s : Path.last_char (String c s) <> None.
Proof.
  revert c. induction s as [|a s IH]; intros c; [discriminate|].
  change (Path.last_char (String c (String a s))) with (Path.last_char (String a s)).
  apply IH.
Qed.

Lemma join_first_char a b c s :
  a = String c s -> exists r, Path.join a b = String c r.
Proof.
  intros ->. unfold Path.join.
  destruct (Path.last_char (String c s)) as [l|] eqn:E.
  - destruct (Path.is_sep l || Path.is_bare_drive (String c s)); eexists; reflexivity.
  - now apply last_char_cons in E.
Qed.

Section ResolverFacts.

Variable os : os_view.

Lemma find_destination_first_reachable username :
  find_destination os username = first_reachable os username.
Proof.
  unfold find_destination, first_reachable, candidates. cbn [List.find].
  change (PyStr.truthy UNC_ROOT) with true. cbn [andb].
  destruct (is_drive_available os (Path.join UNC_ROOT username)); [reflexivity|].
  destruct (is_drive_available os (Path.join MAPPED_ROOT username)); [reflexivity|].
  now destruct (is_drive_available os MAPPED_ROOT).
Qed.

(** A path derived from the network root differs from one derived from
    the mapped root: they start with different characters. *)
Lemma unc_path_not_mapped_path username :
  Path.join (Path.join UNC_ROOT username) BACKUP_FOLDER_NAME <>
  Path.join (Path.join MAPPED_ROOT username) BACKUP_FOLDER_NAME.
Proof.
  destruct (join_first_char UNC_ROOT username "\"%char
              "\server\Unity Exploration\IT Department" eq_refl) as [r1 H1].
  destruct (join_first_char MAPPED_ROOT username "Z"%char ":\\" eq_refl) as [r2 H2].
  destruct (join_first_char _ BACKUP_FOLDER_NAME _ _ H1) as [q1 Q1].
  destruct (join_first_char _ BACKUP_FOLDER_NAME _ _ H2) as [q2 Q2].
  rewrite Q1, Q2. intros E. discriminate E.
Qed.

End ResolverFacts.

(** C4.  [find_destination] returns the first reachable candidate in the
    order network-root/user, mapped-root/user, mapped root, joined with the
    backup folder name, and nothing when none is reachable; when the
    network-root and the mapped-root candidates are both reachable the
    result is the network-root path and not the mapped-root one. *)
Theorem find_destination_priority (os : os_view) (username : string) :
  candidates username =
    [Path.join UNC_ROOT username; Path.join MAPPED_ROOT username; MAPPED_ROOT] /\
  find_destination os username = first_reachable os username /\
  ((forall c, In c (candidates username) -> is_drive_available os c = false) ->
   find_destination os username = None) /\
  (is_drive_available os (Path.join UNC_ROOT username) = true ->
   is_drive_available os (Path.join MAPPED_ROOT username) = true ->
   find_destination os username
     = Some (Path.join (Path.join UNC_ROOT username) BACKUP_FOLDER_NAME) /\
   find_destination os username
     <> Some (Path.join (Path.join MAPPED_ROOT username) BACKUP_FOLDER_NAME)).
Proof.
  split; [reflexivity|]. split; [apply find_destination_first_reachable|]. split.
  - intros Hnone. unfold find_destination.
    rewrite !Hnone; [|simpl; auto ..]. now rewrite andb_false_r.
  - intros Hunc _.
    assert (find_destination os username
            = Some (Path.join (Path.join UNC_ROOT username) BACKUP_FOLDER_NAME)) as E.
    { unfold find_destination. now rewrite Hunc. }
    split; [exact E|]. rewrite E. intros [= Heq].
    exact (unc_path_not_mapped_path username Heq).
Qed.

Lemma find_destination_priority_witness :
  find_destination both_roots_view "bob"
    = Some "\\server\Unity Exploration\IT Department\bob\BACKUP" /\
  find_destination both_roots_view "bob" <> Some "Z:\\bob\BACKUP".
Proof.
  apply (proj2 (proj2 (proj2 (find_destination_priority both_roots_view "bob"))));
    reflexivity.
Defined.

(** C8 as stated fails: the resolver tests the candidate folder and returns
    the backup folder below it, which nothing has tested.  Here the user's
    folder on the share exists, its [BACKUP] sub-folder does not, and the
    resolver returns the latter. *)
Lemma find_destination_result_may_not_exist :
  find_destination bob_share_view "bob"
    = Some "\\server\Unity Exploration\IT Department\bob\BACKUP" /\
  os_exists bob_share_view "\\server\Unity Exploration\IT Department\bob\BACKUP"
    = Some false.
Proof. split; reflexivity. Qed.

(** C8, amended.  When [find_destination] returns a path, that path is a
    candidate folder joined with the backup folder name, and the existence
    check held for the candidate folder at selection time. *)
Theorem find_destination_parent_exists (os : os_view) (username d : string) :
  find_destination os username = Some d ->
  exists c, In c (candidates username) /\
            os_exists os c = Some true /\
            d = Path.join c BACKUP_FOLDER_NAME.
Proof.
  unfold find_destination, candidates, is_drive_available.
  change (PyStr.truthy UNC_ROOT) with true. cbn [andb].
  destruct (os_exists os (Path.join UNC_ROOT username)) as [[]|] eqn:E1;
  [intros [= <-]; eexists; split; [left; reflexivity|now split] |..];
  (destruct (os_exists os (Path.join MAPPED_ROOT username)) as [[]|] eqn:E2;
   [intros [= <-]; eexists; split; [right; left; reflexivity|now split] |..]);
  (destruct (os_exists os MAPPED_ROOT) as [[]|] eqn:E3;
   [intros [= <-]; eexists; split; [right; right; left; reflexivity|now split] |..]);
  discriminate.
Qed.

Lemma find_destination_parent_exists_witness :
  exists c, In c (candidates "bob") /\
            os_exists bob_share_view c = Some true /\
            "\\server\Unity Exploration\IT Department\bob\BACKUP"
              = Path.join c BACKUP_FOLDER_NAME.
Proof.
  apply (find_destination_parent_exists bob_share_view "bob"). reflexivity.
Defined.

(** ** Availability waiter *)

Section WaiterFacts.

Variable resolve : Z -> option string.
Variable interval : Z.
Hypothesis interval_pos : 0 < interval.

(** The loop returns with enough fuel, and leaves in one of two ways: the
    deadline has passed, or the attempt made at the final clock reading
    succeeded. *)
Lemma wait_loop_returns fuel : forall deadline d w,
  (Z.to_nat (deadline - clock w) < fuel)%nat ->
  exists r w',
    wait_loop resolve interval fuel deadline d w = Ok (r, w') /\
    dest w' = dest w /\
    ((deadline <= clock w' /\
      (clock w < deadline + interval -> clock w' < deadline + interval) /\
      (r = d \/ exists t, r = resolve t /\ truthy_path r = false))
     \/
     (clock w' < deadline /\ r = resolve (clock w') /\ truthy_path r = true)).
Proof.
  induction fuel as [|fuel IH]; intros deadline d w Hfuel; [lia|].
  cbn [wait_loop]. unfold bind, now.
  destruct (clock w <? deadline) eqn:Hlt.
  - apply Z.ltb_lt in Hlt. unfold probe.
    destruct (truthy_path (resolve (clock w))) eqn:Htr.
    + eexists _, _. split; [reflexivity|]. split; [reflexivity|].
      right. cbn. auto.
    + unfold sleep. cbn [clock trace dest].
      set (w1 := World (clock w + interval) _ (dest w)).
      destruct (IH deadline (resolve (clock w)) w1) as (r & w' & E & Hd & Hcase).
      { subst w1. cbn [clock]. lia. }
      exists r, w'. split; [exact E|]. split; [rewrite Hd; reflexivity|].
      destruct Hcase as [(Hge & Hup & Hr)|Hs]; [left|right; exact Hs].
      split; [exact Hge|]. split.
      * intros _. apply Hup. subst w1. cbn [clock]. lia.
      * right. destruct Hr as [-> | Hr]; [|exact Hr].
        exists (clock w). auto.
  - apply Z.ltb_ge in Hlt. eexists _, _. split; [reflexivity|].
    split; [reflexivity|]. left. split; [exact Hlt|]. auto.
Qed.

(** After [k] failed attempts the attempt at clock [clock w + k * interval]
    succeeds: the loop returns its path at that clock reading, and the
    last call in the trace is the probe. *)
Lemma wait_loop_first_success (k : nat) : forall fuel deadline d w p,
  (k < fuel)%nat ->
  clock w + Z.of_nat k * interval < deadline ->
  (forall j, (j < k)%nat ->
             truthy_path (resolve (clock w + Z.of_nat j * interval)) = false) ->
  resolve (clock w + Z.of_nat k * interval) = Some p ->
  PyStr.truthy p = true ->
  wait_loop resolve interval fuel deadline d w =
    Ok (Some p,
        World (clock w + Z.of_nat k * interval)
              (EvProbe (clock w + Z.of_nat k * interval)
                 :: failed_attempts interval k (clock w) (trace w))
              (dest w)).
Proof.
  induction k as [|k IH]; intros fuel deadline d w p Hfuel Hdl Hfail Hres Hp;
    (destruct fuel as [|fuel]; [lia|]); cbn [wait_loop]; unfold bind, now.
  - rewrite Z.mul_0_l, Z.add_0_r in *.
    apply Z.ltb_lt in Hdl. rewrite Hdl. unfold probe.
    rewrite Hres. cbn [truthy_path]. rewrite Hp. reflexivity.
  - assert (clock w < deadline) as Hlt by nia.
    apply Z.ltb_lt in Hlt. rewrite Hlt. unfold probe.
    assert (truthy_path (resolve (clock w)) = false) as H0.
    { specialize (Hfail O ltac:(lia)). now rewrite Z.mul_0_l, Z.add_0_r in Hfail. }
    rewrite H0. unfold sleep. cbn [clock trace dest].
    set (w1 := World (clock w + interval)
                     (EvSleep interval :: EvProbe (clock w) :: trace w) (dest w)).
    assert (clock w + Z.of_nat (S k) * interval
            = clock w1 + Z.of_nat k * interval) as Hclk.
    { subst w1. cbn [clock]. lia. }
    rewrite Hclk. cbn [failed_attempts].
    apply (IH fuel deadline (resolve (clock w)) w1 p).
    + lia.
    + rewrite <- Hclk. exact Hdl.
    + intros j Hj. specialize (Hfail (S j) ltac:(lia)).
      replace (clock w1 + Z.of_nat j * interval)
        with (clock w + Z.of_nat (S j) * interval)
        by (subst w1; cbn [clock]; lia).
      exact Hfail.
    + rewrite <- Hclk. exact Hres.
    + exact Hp.
Qed.

Lemma wait_for_destination_returns timeout w :
  exists r w', wait_for_destination resolve interval timeout w = Ok (r, w').
Proof.
  unfold wait_for_destination, bind, now.
  destruct (wait_loop_returns (S (Z.to_nat timeout)) (clock w + timeout) None w)
    as (r & w' & E & _); [lia|]. eauto.
Qed.

End WaiterFacts.

(** C7.  With a positive poll interval the wait loop always returns, without
    raising.  If the resolver answers absent at every attempt, the loop
    returns absent at the first clock reading at or after the deadline,
    less than one poll interval after it.  If an attempt made before the
    deadline is the first to find a path, the loop returns that path at the
    clock reading of that attempt: it does not sleep again. *)
Theorem wait_for_destination_terminates
  (resolve : Z -> option string) (interval timeout : Z) (w : world) :
  0 < interval -> 0 <= timeout ->
  (exists r w', wait_for_destination resolve interval timeout w = Ok (r, w')) /\
  ((forall t, resolve t = None) ->
   exists w', wait_for_destination resolve interval timeout w = Ok (None, w') /\
              clock w + timeout <= clock w' < clock w + timeout + interval) /\
  (forall (k : nat) (p : string),
      Z.of_nat k * interval < timeout ->
      (forall j, (j < k)%nat ->
                 truthy_path (resolve (clock w + Z.of_nat j * interval)) = false) ->
      resolve (clock w + Z.of_nat k * interval) = Some p ->
      PyStr.truthy p = true ->
      wait_for_destination resolve interval timeout w =
        Ok (Some p,
            World (clock w + Z.of_nat k * interval)
                  (EvProbe (clock w + Z.of_nat k * interval)
                     :: failed_attempts interval k (clock w) (trace w))
                  (dest w))).
Proof.
  intros Hint Hto. split; [|split].
  - now apply wait_for_destination_returns.
  - intros Hnone. unfold wait_for_destination, bind, now.
    destruct (wait_loop_returns resolve interval Hint (S (Z.to_nat timeout))
                (clock w + timeout) None w)
      as (r & w' & E & _ & Hcase); [lia|].
    destruct Hcase as [(Hge & Hup & Hr)|(_ & Hr & Htr)].
    + assert (r = None) as -> by (destruct Hr as [->|(t & -> & _)]; auto).
      exists w'. split; [exact E|]. split; [exact Hge|]. apply Hup. lia.
    + rewrite Hr, Hnone in Htr. discriminate.
  - intros k p Hk Hfail Hres Hp. unfold wait_for_destination, bind, now.
    apply (wait_loop_first_success resolve interval Hint k); try assumption; nia.
Qed.

Lemma wait_for_destination_terminates_witness :
  (exists w', wait_for_destination never_resolves 60 900 start_world = Ok (None, w') /\
              900 <= clock w' < 960) /\
  wait_for_destination resolves_from_180 60 900 start_world =
    Ok (Some "Z:\\BACKUP",
        World 180
              [EvProbe 180; EvSleep 60; EvProbe 120; EvSleep 60; EvProbe 60;
               EvSleep 60; EvProbe 0]
              ∅).
Proof.
  split.
  - apply (proj1 (proj2 (wait_for_destination_terminates
                           never_resolves 60 900 start_world ltac:(lia) ltac:(lia)))).
    reflexivity.
  - apply (proj2 (proj2 (wait_for_destination_terminates
                           resolves_from_180 60 900 start_world ltac:(lia) ltac:(lia)))
             3%nat "Z:\\BACKUP").
    + reflexivity.
    + intros j Hj.
      destruct j as [|[|[|j]]]; [reflexivity..|lia].
    + reflexivity.
    + reflexivity.
Defined.

(** ** Incremental copy engine, fallback mode *)



(** *** Idempotence *)

Lemma dest_le_refl d : dest_le d d.
Proof. intros p df H. exists df. split; [exact H|lia]. Qed.

Lemma dest_le_trans d1 d2 d3 : dest_le d1 d2 -> dest_le d2 d3 -> dest_le d1 d3.
Proof.
  intros H12 H23 p df H. destruct (H12 p df H) as (df2 & H2 & L2).
  destruct (H23 p df2 H2) as (df3 & H3 & L3). exists df3. split; [exact H3|lia].
Qed.

(** A fold whose steps only move the state upwards and settle their own
    item leaves every item settled. *)
Section FoldSettles.

Context {A : Type}.
Variable step : dest_files -> A -> dest_files.
Variable settled : dest_files -> A -> Prop.
Hypothesis step_le : forall d a, dest_le d (step d a).
Hypothesis step_settles : forall d a, settled (step d a) a.
Hypothesis settled_le : forall d d' a, dest_le d d' -> settled d a -> settled d' a.
Hypothesis settled_fix : forall d a, settled d a -> step d a = d.

Lemma fold_le l : forall d, dest_le d (fold_left step l d).
Proof.
  induction l as [|a l IH]; intros d; [apply dest_le_refl|].
  cbn [fold_left]. eapply dest_le_trans; [apply step_le|apply IH].
Qed.

Lemma fold_settles l : forall d, Forall (settled (fold_left step l d)) l.
Proof.
  induction l as [|a l IH]; intros d; [constructor|].
  cbn [fold_left]. constructor; [|apply IH].
  eapply settled_le; [apply fold_le|apply step_settles].
Qed.

Lemma fold_settled_fix l : forall d, Forall (settled d) l -> fold_left step l d = d.
Proof.
  induction l as [|a l IH]; intros d H; [reflexivity|].
  inversion H as [|? ? Ha Hl]; subst. cbn [fold_left].
  rewrite (settled_fix _ _ Ha). now apply IH.
Qed.

Lemma fold_idempotent l d :
  fold_left step l (fold_left step l d) = fold_left step l d.
Proof. apply fold_settled_fix, fold_settles. Qed.

End FoldSettles.

Lemma backup_file_le sf p d : dest_le d (backup_file sf p d).
Proof.
  unfold backup_file, copy_needed, copy2.
  destruct (d !! p) as [df|] eqn:Hd.
  - destruct (s_stat sf) as [st|]; [|apply dest_le_refl].
    destruct (st_mtime df <? st_mtime st) eqn:Hlt; [|apply dest_le_refl].
    destruct (s_readable sf); [|apply dest_le_refl].
    apply Z.ltb_lt in Hlt. intros q dq Hq.
    destruct (decide (p = q)) as [->|Hne].
    + rewrite lookup_insert_eq. exists st. split; [reflexivity|].
      rewrite Hd in Hq. injection Hq as <-. lia.
    + rewrite lookup_insert_ne by exact Hne. exists dq. split; [exact Hq|lia].
  - destruct (s_stat sf) as [st|]; [|apply dest_le_refl].
    destruct (s_readable sf); [|apply dest_le_refl].
    intros q dq Hq. destruct (decide (p = q)) as [->|Hne].
    + rewrite Hd in Hq. discriminate.
    + rewrite lookup_insert_ne by exact Hne. exists dq. split; [exact Hq|lia].
Qed.

Section FileLevel.

Variables root target_root : string.

Lemma visit_file_le d entry : dest_le d (visit_file root target_root d entry).
Proof.
  unfold visit_file. destruct (should_skip _ _); [apply dest_le_refl|].
  apply backup_file_le.
Qed.

Lemma visit_file_settles d entry :
  settled_file root target_root (visit_file root target_root d entry) entry.
Proof.
  unfold settled_file, visit_file.
  destruct (should_skip _ _) eqn:Hskip; [left; reflexivity|right].
  destruct entry as [f sf]. cbn [fst snd]. unfold backup_file, copy_needed.
  destruct (s_stat sf) as [st|] eqn:Hst;
    [|left; intros d0 p; unfold copy2; now rewrite Hst].
  destruct (s_readable sf) eqn:Hrd;
    [|left; intros d0 p; unfold copy2; now rewrite Hst, Hrd].
  right. exists st. unfold copy2. rewrite Hst, Hrd.
  destruct (d !! Path.join target_root f) as [df|] eqn:Hd.
  - destruct (st_mtime df <? st_mtime st) eqn:Hlt.
    + exists st. rewrite lookup_insert_eq. split; [reflexivity|]. split; [reflexivity|lia].
    + apply Z.ltb_ge in Hlt. exists df. auto.
  - exists st. rewrite lookup_insert_eq. split; [reflexivity|]. split; [reflexivity|lia].
Qed.

Lemma settled_file_le d d' entry :
  dest_le d d' -> settled_file root target_root d entry ->
  settled_file root target_root d' entry.
Proof.
  intros Hle [H|[H|(st & df & Hst & Hd & Hm)]]; [left; exact H|right; left; exact H|].
  right; right. destruct (Hle _ _ Hd) as (df' & Hd' & Hm').
  exists st, df'. split; [exact Hst|]. split; [exact Hd'|lia].
Qed.

Lemma settled_file_fix d entry :
  settled_file root target_root d entry -> visit_file root target_root d entry = d.
Proof.
  unfold settled_file, visit_file.
  intros [H|[H|(st & df & Hst & Hd & Hm)]].
  - now rewrite H.
  - destruct (should_skip _ _); [reflexivity|]. unfold backup_file.
    rewrite H. now destruct (copy_needed _ _ _) as [[]|].
  - destruct (should_skip _ _); [reflexivity|].
    unfold backup_file, copy_needed. rewrite Hd, Hst.
    apply Z.ltb_ge in Hm. now rewrite Hm.
Qed.

End FileLevel.

Section DirLevel.

Variable target : string.

Lemma visit_dir_le d en : dest_le d (visit_dir target d en).
Proof. apply fold_le, visit_file_le. Qed.

Lemma visit_dir_settles d en : settled_dir target (visit_dir target d en) en.
Proof.
  apply (fold_settles (visit_file _ _) (settled_file _ _));
    [apply visit_file_le | apply visit_file_settles | apply settled_file_le].
Qed.

Lemma settled_dir_le d d' en :
  dest_le d d' -> settled_dir target d en -> settled_dir target d' en.
Proof.
  intros Hle H. unfold settled_dir in *. eapply Forall_impl; [exact H|].
  intros entry. now apply settled_file_le.
Qed.

Lemma settled_dir_fix d en : settled_dir target d en -> visit_dir target d en = d.
Proof. apply fold_settled_fix, settled_file_fix. Qed.

(** A second pass over the walk leaves the destination as the first pass
    made it. *)
Lemma walk_idempotent entries d :
  fold_left (visit_dir target) entries (fold_left (visit_dir target) entries d)
  = fold_left (visit_dir target) entries d.
Proof.
  apply (fold_idempotent (visit_dir target) (settled_dir target));
    [apply visit_dir_le | apply visit_dir_settles
    | apply settled_dir_le | apply settled_dir_fix].
Qed.

End DirLevel.

Section EngineFacts.

Variable e : env.

Lemma fallback_copy_ok target entries :
  dirs_ok e target entries = true ->
  forall w, exists tr,
    fallback_copy e target entries w
    = Ok (tt, World (clock w) tr (fold_left (visit_dir target) entries (dest w))).
Proof.
  induction entries as [|[[root rel] files] rest IH]; intros Hok w.
  - exists (trace w). destruct w; reflexivity.
  - cbn [dirs_ok forallb fst snd] in Hok. apply andb_true_iff in Hok as [Hmk Hrest].
    cbn [fallback_copy]. unfold bind, makedirs. rewrite Hmk.
    unfold log, modify_dest. cbn [clock trace dest].
    destruct (IH Hrest
                (World (clock w)
                       (EvMakedirs (target_root_of target rel) :: trace w)
                       (copy_files root (target_root_of target rel) files (dest w))))
      as (tr & E).
    exists tr. rewrite E. reflexivity.
Qed.

Lemma fallback_copy_raises target entries :
  dirs_ok e target entries = false ->
  forall w, fallback_copy e target entries w = Raised.
Proof.
  induction entries as [|[[root rel] files] rest IH]; intros Hok w; [discriminate|].
  cbn [dirs_ok forallb fst snd] in Hok. cbn [fallback_copy]. unfold bind, makedirs.
  destruct (makedirs_ok e (target_root_of target rel)); [|reflexivity].
  unfold log, modify_dest. rewrite IH; [reflexivity|exact Hok].
Qed.

(** The copy engine returns or raises; it has no loop that can run on. *)
Lemma copy_folder_incremental_no_diverge src dst w :
  copy_folder_incremental e src dst w <> Diverged.
Proof.
  unfold copy_folder_incremental.
  destruct (source e src) as [t|]; [|discriminate].
  unfold bind, makedirs. destruct (makedirs_ok e _); [|discriminate].
  unfold log. destruct (robocopy_available e); [discriminate|].
  set (target := Path.join dst _). set (w1 := World _ _ _).
  destruct (dirs_ok e target (os_walk src [] t)) eqn:Hok.
  - destruct (fallback_copy_ok _ _ Hok w1) as (tr & ->). discriminate.
  - rewrite (fallback_copy_raises _ _ Hok). discriminate.
Qed.

End EngineFacts.

(** C6.  In fallback mode, when a run of [copy_folder_incremental] has
    returned, a second run against the same source returns too and leaves
    the destination files exactly as the first run left them: nothing is
    created and no modification time changes. *)
Theorem fallback_copy_idempotent (e : env) (src dst : string) (w w1 : world) :
  robocopy_available e = false ->
  copy_folder_incremental e src dst w = Ok (tt, w1) ->
  exists w2, copy_folder_incremental e src dst w1 = Ok (tt, w2) /\
             dest w2 = dest w1.
Proof.
  intros Hfb. unfold copy_folder_incremental.
  destruct (source e src) as [t|]; [|intros _; exists w1; split; reflexivity].
  rewrite Hfb. unfold bind, makedirs.
  set (target := Path.join dst _).
  destruct (makedirs_ok e target); [|discriminate].
  unfold log. cbn [clock trace dest].
  destruct (dirs_ok e target (os_walk src [] t)) eqn:Hok.
  - set (wa := World (clock w) _ (dest w)).
    destruct (fallback_copy_ok e _ _ Hok wa) as (tr & ->).
    intros [= <-]. cbn [clock trace dest].
    match goal with
    | |- context [fallback_copy e _ _ ?wb] =>
        destruct (fallback_copy_ok e _ _ Hok wb) as (tr' & ->)
    end.
    eexists. split; [reflexivity|]. subst wa. cbn [dest].
    apply walk_idempotent.
  - rewrite (fallback_copy_raises e _ _ Hok). discriminate.
Qed.

Lemma fallback_copy_idempotent_witness :
  exists w2,
    copy_folder_incremental demo_env "C:\Users\bob\Documents" "Z:\\bob\BACKUP"
                            after_first_run = Ok (tt, w2) /\
    dest w2 = dest after_first_run.
Proof.
  apply (fallback_copy_idempotent demo_env "C:\Users\bob\Documents" "Z:\\bob\BACKUP"
                                  start_world after_first_run).
  - reflexivity.
  - vm_compute. reflexivity.
Defined.

Example first_run_copies :
  dest after_first_run =
    {[ "Z:\\bob\BACKUP\Documents\report.txt" := FStat 100 2048;
       "Z:\\bob\BACKUP\Documents\Work\plan.doc" := FStat 200 4096 ]}.
Proof. vm_compute. reflexivity. Qed.

(** ** Orchestrator and exit code *)

Section MainFacts.

Variable e : env.


(** The wait of [main]: it returns; a falsy result means that the deadline
    has passed, a truthy one is what the resolver answered at the final
    clock reading, before the deadline. *)
Lemma main_wait username w :
  exists r w1,
    wait_for_destination (fun t => find_destination (dest_view e t) username)
      RETRY_INTERVAL_SECONDS (DRIVE_RETRY_MINUTES * 60) w = Ok (r, w1) /\
    dest w1 = dest w /\
    (truthy_path r = false ->
     clock w + 900 <= clock w1 < clock w + 960) /\
    (truthy_path r = true ->
     clock w1 < clock w + 900 /\
     r = find_destination (dest_view e (clock w1)) username) /\
    ((forall t, find_destination (dest_view e t) username = None) -> r = None).
Proof.
  unfold wait_for_destination, bind, now.
  destruct (wait_loop_returns
              (fun t => find_destination (dest_view e t) username)
              RETRY_INTERVAL_SECONDS ltac:(reflexivity)
              (S (Z.to_nat (DRIVE_RETRY_MINUTES * 60)))
              (clock w + DRIVE_RETRY_MINUTES * 60) None w)
    as (r & w1 & E & Hd & Hcase); [lia|].
  exists r, w1. split; [exact E|]. split; [exact Hd|].
  change (DRIVE_RETRY_MINUTES * 60) with 900 in Hcase.
  change RETRY_INTERVAL_SECONDS with 60 in Hcase.
  destruct Hcase as [(Hge & Hup & Hr)|(Hlt & Hr & Htr)].
  - split; [intros _; lia|]. split.
    + intros Ht. destruct Hr as [->|(t & _ & Hf)]; [discriminate Ht|congruence].
    + intros Hnone. destruct Hr as [->|(t & -> & _)]; auto.
  - split; [intros Hf; rewrite Hf in Htr; discriminate|]. split.
    + intros _. split; [exact Hlt|exact Hr].
    + intros Hnone. rewrite Hr. apply Hnone.
Qed.


End MainFacts.



Example demo_run_exit_code : exit_code demo_env start_world = Some 0.
Proof. vm_compute. reflexivity. Qed.

Example demo_run_trace :
  match main demo_env start_world with
  | Ok (_, w) => clock w = 120 /\
                 dest w = {[ "Z:\\bob\BACKUP\Documents\report.txt" := FStat 100 2048;
                             "Z:\\bob\BACKUP\Documents\Work\plan.doc" := FStat 200 4096 ]}
  | _ => False
  end.
Proof. vm_compute. split; reflexivity. Qed.

(** ** Delegated mode against the skip policy *)

Lemma last_char_none a : Path.last_char a = None -> a = "".
Proof.
  destruct a as [|c a]; [reflexivity|]. intros H. now apply last_char_cons in H.
Qed.

Lemma contains_empty_r sub : PyStr.contains sub "" = true -> sub = "".
Proof. destruct sub; [reflexivity|discriminate]. Qed.

Lemma contains_empty_l s : PyStr.contains "" s = true.
Proof. destruct s; reflexivity. Qed.

Lemma lower_join_contains_l sub a b :
  PyStr.contains sub (PyStr.lower a) = true ->
  PyStr.contains sub (PyStr.lower (Path.join a b)) = true.
Proof.
  intros H. unfold Path.join.
  destruct (Path.last_char a) as [c|] eqn:E.
  - destruct (Path.is_sep c || Path.is_bare_drive a);
      rewrite lower_app; now apply contains_app_l.
  - apply last_char_none in E. subst a.
    apply contains_empty_r in H. subst sub. apply contains_empty_l.
Qed.

Lemma lower_join_contains_r sub a b :
  PyStr.contains sub (PyStr.lower b) = true ->
  PyStr.contains sub (PyStr.lower (Path.join a b)) = true.
Proof.
  intros H. unfold Path.join.
  destruct (Path.last_char a) as [c|]; [|exact H].
  destruct (Path.is_sep c || Path.is_bare_drive a); rewrite !lower_app.
  - now apply contains_app_r.
  - now apply contains_app_r, contains_app_r.
Qed.

Lemma lower_fold_join_contains sub rel : forall acc,
  PyStr.contains sub (PyStr.lower acc) = true ->
  PyStr.contains sub (PyStr.lower (fold_left Path.join rel acc)) = true.
Proof.
  induction rel as [|d rel IH]; intros acc H; [exact H|].
  cbn [fold_left]. apply IH. now apply lower_join_contains_l.
Qed.

(** The lowered name of every directory on the way to a file occurs in the
    lowered path of the file. *)
Lemma walk_path_contains_dir src rel f d :
  In d rel ->
  PyStr.contains (PyStr.lower d) (PyStr.lower (walk_path src rel f)) = true.
Proof.
  intros Hin. unfold walk_path. apply lower_join_contains_l.
  revert src. induction rel as [|d' rel IH]; intros src; [destruct Hin|].
  cbn [fold_left]. destruct Hin as [->|Hin]; [|now apply IH].
  apply lower_fold_join_contains, lower_join_contains_r, contains_refl.
Qed.

(** The triples of [os.walk] carry the path that [walk_path] joins. *)
Lemma os_walk_root : forall (t : tree) root rel0 en,
  In en (os_walk root rel0 t) ->
  exists rel', snd (fst en) = (rel0 ++ rel')%list /\
               fst (fst en) = fold_left Path.join rel' root.
Proof.
  fix IH 1. intros [files subdirs] root rel0 en. cbn [os_walk].
  intros [<-|Hin].
  - exists []. cbn. now rewrite app_nil_r.
  - revert subdirs Hin. fix IHs 1. intros [|[name t'] subdirs]; cbn [flat_map].
    + intros [].
    + intros Hin. apply in_app_or in Hin as [H|H].
      * cbn [fst snd] in H. apply IH in H as (rel' & Hrel & Hroot).
        exists (name :: rel'). cbn [fold_left]. split; [|exact Hroot].
        rewrite Hrel. now rewrite <- app_assoc.
      * exact (IHs subdirs H).
Qed.

Lemma os_walk_paths t src root rel files f :
  In (root, rel, files) (os_walk src [] t) ->
  Path.join root f = walk_path src rel f.
Proof.
  intros Hin. apply os_walk_root in Hin as (rel' & Hrel & Hroot).
  cbn [fst snd] in *. subst rel. unfold walk_path. now rewrite Hroot.
Qed.

(** C2 as stated fails.  The directory names passed after [/XD] are not the
    substrings of the skip policy: [microsoft] is missing and [Desktop] is
    added.  And the verdicts differ: the skip policy rejects
    [template.txt] for the substring [temp], while the command, which
    excludes whole directory names and five file patterns, keeps it. *)
Lemma delegated_differs_from_skip_policy :
  (In "microsoft" SKIP_SUBSTRINGS /\
   ~ In "microsoft" (List.map PyStr.lower (xd_names documents_cmd))) /\
  (In "desktop" (List.map PyStr.lower (xd_names documents_cmd)) /\
   ~ In "desktop" SKIP_SUBSTRINGS) /\
  has_skip_substring (walk_path documents [] "template.txt") = true /\
  delegated_excludes documents_cmd [] "template.txt" = false.
Proof.
  repeat match goal with |- _ /\ _ => split end;
    try (vm_compute; tauto); try reflexivity.
  - vm_compute. intros H. repeat (destruct H as [H|H]; [discriminate H|]). exact H.
  - vm_compute. intros H. repeat (destruct H as [H|H]; [discriminate H|]). exact H.
Qed.

Lemma shared_dir_is_skip_substring x :
  In x SHARED_EXCLUDED_DIRS -> In (PyStr.lower x) SKIP_SUBSTRINGS.
Proof.
  intros H. repeat (destruct H as [<-|H]; [vm_compute; tauto|]). destruct H.
Qed.

(** C2, amended.  The command excludes the file patterns [*.exe], [*.msi],
    [*.bat], [*.cmd], [*.dll] and, among its directory names, [AppData],
    [Program Files], [Windows] and [Temp].  Each of these four names is,
    lowered, a substring of the skip policy, so a file that lies in a
    directory so named, in any case, is left out by the command and skipped
    by [should_skip] as well. *)
Theorem delegated_dirs_within_skip_policy (src target : string) :
  xf_patterns (robocopy_cmd src target)
    = ["*.exe"; "*.msi"; "*.bat"; "*.cmd"; "*.dll"] /\
  incl SHARED_EXCLUDED_DIRS (xd_names (robocopy_cmd src target)) /\
  (forall x, In x SHARED_EXCLUDED_DIRS -> In (PyStr.lower x) SKIP_SUBSTRINGS) /\
  (forall (os : os_view) (rel : list string) (f d x : string),
      In d rel -> In x SHARED_EXCLUDED_DIRS -> name_matches x d = true ->
      delegated_excludes (robocopy_cmd src target) rel f = true /\
      should_skip os (walk_path src rel f) = true).
Proof.
  split; [reflexivity|]. split; [|split].
  - intros x H. cbn. cbn in H. tauto.
  - apply shared_dir_is_skip_substring.
  - intros os rel f d x Hd Hx Hm. split.
    + unfold delegated_excludes. apply orb_true_iff. left.
      apply existsb_exists. exists d. split; [exact Hd|].
      apply existsb_exists. exists x. split; [|exact Hm].
      cbn. cbn in Hx. tauto.
    + assert (PyStr.lower x = PyStr.lower d) as Hlow.
      { repeat (destruct Hx as [<-|Hx]; [now apply String.eqb_eq in Hm|]).
        destruct Hx. }
      assert (has_skip_substring (walk_path src rel f) = true) as Hs.
      { unfold has_skip_substring. apply existsb_exists.
        exists (PyStr.lower x). split; [now apply shared_dir_is_skip_substring|].
        rewrite Hlow. now apply walk_path_contains_dir. }
      unfold should_skip, should_skip_with. now rewrite Hs.
Qed.

Lemma delegated_dirs_within_skip_policy_witness :
  delegated_excludes documents_cmd ["Work"; "TEMP"] "notes.txt" = true /\
  should_skip huge_pst_view (walk_path documents ["Work"; "TEMP"] "notes.txt") = true.
Proof.
  apply (proj2 (proj2 (proj2 (delegated_dirs_within_skip_policy
                                documents "Z:\\bob\BACKUP\Documents")))
           huge_pst_view ["Work"; "TEMP"] "notes.txt" "TEMP" "Temp").
  - cbn. tauto.
  - cbn. tauto.
  - reflexivity.
Defined.

(** * Further properties of the code *)

(** ** Skip policy *)

Lemma rev_app_acc s : forall acc,
  String.rev_app s acc = String.rev_app s "" +:+ acc.
Proof.
  induction s as [|c s IH]; intros acc; [reflexivity|].
  cbn [String.rev_app]. rewrite (IH (String c acc)), (IH (String c "")).
  generalize (String.rev_app s ""). intros r.
  induction r as [|a r IHr]; [reflexivity|].
  change (String a r +:+ String c acc) with (String a (r +:+ String c acc)).
  change ((String a r +:+ String c "") +:+ acc)
    with (String a ((r +:+ String c "") +:+ acc)).
  now rewrite IHr.
Qed.

Lemma rev_app_distr s t : String.rev (s +:+ t) = String.rev t +:+ String.rev s.
Proof.
  unfold String.rev. generalize "" at 1 3. induction s as [|c s IH]; intros acc.
  - cbn [String.rev_app]. change ("" +:+ t) with t. apply rev_app_acc.
  - change (String c s +:+ t) with (String c (s +:+ t)). cbn [String.rev_app].
    apply IH.
Qed.

Lemma endswith_app suffix s : PyStr.endswith suffix (s +:+ suffix) = true.
Proof.
  unfold PyStr.endswith. rewrite rev_app_distr.
  apply startswith_app, startswith_refl.
Qed.

(** X1.  The denylist is matched without regard to case and anywhere in the
    path: a path that contains, in any mix of cases, one of the five words
    is skipped, whatever the file system says about it. *)
Theorem should_skip_denylist_any_case (os : os_view) (pre word post : string) :
  In (PyStr.lower word) SKIP_SUBSTRINGS ->
  should_skip os (pre +:+ word +:+ post) = true.
Proof.
  intros Hin.
  assert (has_skip_substring (pre +:+ word +:+ post) = true) as Hs.
  { unfold has_skip_substring. apply existsb_exists.
    exists (PyStr.lower word). split; [exact Hin|].
    rewrite !lower_app. apply contains_app_r, contains_app_l, contains_refl. }
  unfold should_skip, should_skip_with. now rewrite Hs.
Qed.

Lemma should_skip_denylist_any_case_witness :
  should_skip big_file_view "D:\Projects\My TeMPlates\plan.docx" = true.
Proof.
  apply (should_skip_denylist_any_case big_file_view
           "D:\Projects\My " "TeMP" "lates\plan.docx").
  vm_compute. tauto.
Defined.

(** X2.  Every path that ends with [.lnk] is skipped, whatever the file
    system says about it. *)
Theorem should_skip_shortcut (os : os_view) (stem : string) :
  should_skip os (stem +:+ ".lnk") = true.
Proof.
  unfold should_skip, should_skip_with. rewrite endswith_app.
  now destruct (has_skip_substring _).
Qed.

(** X3.  A regular file whose size cannot be read is skipped: the failure
    of [os.path.getsize] never leaves [should_skip] as an exception and never
    lets the file through. *)
Theorem should_skip_unreadable_size (os : os_view) (path : string) :
  os_isfile os path = true ->
  os_getsize os path = None ->
  should_skip os path = true.
Proof.
  intros Hf Hs. unfold should_skip, should_skip_with, size_rule.
  rewrite Hf, Hs.
  destruct (has_skip_substring path); [reflexivity|].
  now destruct (PyStr.endswith ".lnk" path).
Qed.

Lemma should_skip_unreadable_size_witness :
  should_skip vanished_file_view "C:\Users\bob\Documents\Outlook\mail.pst" = true.
Proof.
  apply should_skip_unreadable_size; reflexivity.
Defined.

(** ** Destination resolver *)

Lemma endswith_app_r suffix s t :
  PyStr.endswith suffix t = true -> PyStr.endswith suffix (s +:+ t) = true.
Proof.
  unfold PyStr.endswith. intros H. rewrite rev_app_distr. now apply startswith_app.
Qed.

Lemma join_endswith a b : PyStr.endswith b (Path.join a b) = true.
Proof.
  unfold Path.join. destruct (Path.last_char a) as [c|].
  - destruct (Path.is_sep c || Path.is_bare_drive a).
    + apply endswith_app.
    + apply endswith_app_r, endswith_app.
  - apply startswith_refl.
Qed.

Lemma join_truthy a b : PyStr.truthy b = true -> PyStr.truthy (Path.join a b) = true.
Proof.
  intros Hb. destruct a as [|c a].
  - exact Hb.
  - destruct (join_first_char (String c a) b c a eq_refl) as [r ->]. reflexivity.
Qed.

(** X4.  A path returned by [find_destination] ends with the backup folder
    name and is not the empty string, so the test [if not dest_root] in
    [main] rejects nothing but [None]. *)
Theorem find_destination_returns_backup_folder
  (os : os_view) (username p : string) :
  find_destination os username = Some p ->
  PyStr.endswith BACKUP_FOLDER_NAME p = true /\
  truthy_path (find_destination os username) = true.
Proof.
  intros H. rewrite H. cbn [truthy_path]. revert H.
  rewrite find_destination_first_reachable. unfold first_reachable.
  destruct (List.find _ _) as [c|]; [|discriminate].
  intros [= <-]. split; [apply join_endswith|now apply join_truthy].
Qed.

Lemma find_destination_returns_backup_folder_witness :
  PyStr.endswith BACKUP_FOLDER_NAME
    "\\server\Unity Exploration\IT Department\bob\BACKUP" = true /\
  truthy_path (find_destination bob_share_view "bob") = true.
Proof.
  apply (find_destination_returns_backup_folder bob_share_view "bob"). reflexivity.
Defined.

(** X5.  An exception raised while the network share is probed does not
    leave [find_destination]: the share counts as unreachable and the mapped
    drive is tried next. *)
Theorem find_destination_survives_probe_error (os : os_view) (username : string) :
  os_exists os (Path.join UNC_ROOT username) = None ->
  find_destination os username =
    if is_drive_available os (Path.join MAPPED_ROOT username)
    then Some (Path.join (Path.join MAPPED_ROOT username) BACKUP_FOLDER_NAME)
    else if is_drive_available os MAPPED_ROOT
         then Some (Path.join MAPPED_ROOT BACKUP_FOLDER_NAME)
         else None.
Proof.
  intros H. unfold find_destination.
  unfold is_drive_available at 1. rewrite H. now rewrite andb_false_r.
Qed.

Lemma find_destination_survives_probe_error_witness :
  find_destination broken_share_view "bob" = Some "Z:\\bob\BACKUP".
Proof.
  rewrite (find_destination_survives_probe_error broken_share_view "bob");
    reflexivity.
Defined.

(** ** Availability waiter *)

Section WaiterMore.

Variable interval : Z.



End WaiterMore.





(** ** Incremental copy engine, fallback mode *)

(** Where a fold of visits leaves a path: as it was, or as one of the visits
    wrote it. *)
Section FoldFrame.

Context {A : Type}.
Variable step : dest_files -> A -> dest_files.
Variable wrote : A -> string -> option fstat -> Prop.
Hypothesis step_frame :
  forall d a p, step d a !! p = d !! p \/ wrote a p (step d a !! p).


End FoldFrame.



Section FallbackRun.

Variable e : env.
Hypothesis fallback_mode : robocopy_available e = false.

(** The destination after a fallback run that returned. *)
Lemma fallback_run_dest src dst t w w' :
  source e src = Some t ->
  copy_folder_incremental e src dst w = Ok (tt, w') ->
  dest w' = fold_left (visit_dir (target_of src dst)) (os_walk src [] t) (dest w) /\
  clock w' = clock w.
Proof.
  intros Hsrc. unfold copy_folder_incremental. rewrite Hsrc, fallback_mode.
  fold (target_of src dst). unfold bind, makedirs.
  destruct (makedirs_ok e (target_of src dst)); [|discriminate].
  unfold log. cbn [clock trace dest].
  destruct (dirs_ok e (target_of src dst) (os_walk src [] t)) eqn:Hok.
  - match goal with
    | |- context [fallback_copy e _ _ ?wa] =>
        destruct (fallback_copy_ok e _ _ Hok wa) as (tr & ->)
    end.
    intros [= <-]. split; reflexivity.
  - rewrite (fallback_copy_raises e _ _ Hok). discriminate.
Qed.

End FallbackRun.

(** X8.  The fallback engine never deletes and never puts an older file
    over a newer one: every file the destination held before the run is
    still there afterwards, with a modification time that is the same or
    later. *)
Theorem fallback_never_deletes (e : env) (src dst : string) (w w' : world) :
  robocopy_available e = false ->
  copy_folder_incremental e src dst w = Ok (tt, w') ->
  forall p df, dest w !! p = Some df ->
    exists df', dest w' !! p = Some df' /\ st_mtime df <= st_mtime df'.
Proof.
  intros Hfb Hrun. destruct (source e src) as [t|] eqn:Hsrc.
  - destruct (fallback_run_dest e Hfb src dst t w w' Hsrc Hrun) as [-> _].
    apply (fold_le (visit_dir (target_of src dst))), visit_dir_le.
  - unfold copy_folder_incremental in Hrun. rewrite Hsrc in Hrun.
    injection Hrun as <-. apply dest_le_refl.
Qed.

Lemma fallback_never_deletes_witness :
  exists df', dest after_used_run !! "Z:\\bob\BACKUP\Documents\report.txt" = Some df' /\
              500 <= st_mtime df'.
Proof.
  apply (fallback_never_deletes old_docs_env "C:\Users\bob\Documents" "Z:\\bob\BACKUP"
           used_world after_used_run eq_refl
           ltac:(vm_compute; reflexivity)
           "Z:\\bob\BACKUP\Documents\report.txt" (FStat 500 4096)).
  vm_compute. reflexivity.
Defined.





(** ** Where exceptions can come from *)

Section RaiseFacts.

Variable e : env.

Lemma dirs_ok_false target entries :
  dirs_ok e target entries = false -> exists p, makedirs_ok e p = false.
Proof.
  induction entries as [|en rest IH]; cbn [dirs_ok forallb]; [discriminate|].
  intros [H|H]%andb_false_iff; [eauto|now apply IH].
Qed.

Lemma copy_folder_incremental_raised src dst w :
  copy_folder_incremental e src dst w = Raised ->
  exists p, makedirs_ok e p = false.
Proof.
  unfold copy_folder_incremental.
  destruct (source e src) as [t|]; [|discriminate].
  fold (target_of src dst). unfold bind, makedirs.
  destruct (makedirs_ok e (target_of src dst)) eqn:Hmk; [|eauto].
  unfold log. destruct (robocopy_available e); [discriminate|].
  destruct (dirs_ok e (target_of src dst) (os_walk src [] t)) eqn:Hok.
  - match goal with
    | |- context [fallback_copy e _ _ ?wa] =>
        destruct (fallback_copy_ok e _ _ Hok wa) as (tr & ->)
    end. discriminate.
  - intros _. now apply dirs_ok_false in Hok.
Qed.

Lemma copy_all_raised srcs p : forall w,
  copy_all e srcs p w = Raised -> exists q, makedirs_ok e q = false.
Proof.
  induction srcs as [|s srcs IH]; intros w; [discriminate|].
  cbn [copy_all]. unfold bind.
  destruct (copy_folder_incremental e s p w) as [[[] w1]| |] eqn:E.
  - apply IH.
  - intros _. now apply copy_folder_incremental_raised in E.
  - discriminate.
Qed.

End RaiseFacts.

(** X11.  [copy_folder_incremental] raises only when an [os.makedirs] call
    raises.  In either mode, with unreadable files or a robocopy run that
    fails, it returns as long as the directories can be created. *)
Theorem copy_folder_incremental_raises_only_on_makedirs
  (e : env) (src dst : string) (w : world) :
  (copy_folder_incremental e src dst w = Raised ->
   exists p, makedirs_ok e p = false) /\
  ((forall p, makedirs_ok e p = true) ->
   exists w', copy_folder_incremental e src dst w = Ok (tt, w')).
Proof.
  split; [apply copy_folder_incremental_raised|].
  intros Hall.
  destruct (copy_folder_incremental e src dst w) as [[[] w']| |] eqn:E.
  - eauto.
  - apply copy_folder_incremental_raised in E as (p & Hp).
    rewrite Hall in Hp. discriminate.
  - now apply copy_folder_incremental_no_diverge in E.
Qed.

Lemma copy_folder_incremental_raises_only_on_makedirs_witness :
  exists w', copy_folder_incremental failing_robocopy_env
               "C:\Users\bob\Documents" "Z:\\bob\BACKUP" start_world = Ok (tt, w').
Proof.
  apply (proj2 (copy_folder_incremental_raises_only_on_makedirs
                  failing_robocopy_env "C:\Users\bob\Documents" "Z:\\bob\BACKUP"
                  start_world)).
  reflexivity.
Defined.

(** X12.  The process exits with 99 only when [getpass.getuser] or an
    [os.makedirs] call raised.  An unreachable destination, unreadable
    files and a failing robocopy never give 99. *)
Theorem exit_99_only_from_getuser_or_makedirs (e : env) (w : world) :
  exit_code e w = Some 99 ->
  getuser e = None \/ exists p, makedirs_ok e p = false.
Proof.
  unfold exit_code, main.
  destruct (getuser e) as [u|]; [|auto].
  destruct (src_folders e) as [|s ss]; [discriminate|].
  unfold bind.
  destruct (main_wait e u w) as (r & w1 & -> & _).
  destruct r as [p|]; [|discriminate].
  destruct (PyStr.truthy p); [|discriminate].
  unfold makedirs. destruct (makedirs_ok e p) eqn:Hmk; [|eauto].
  unfold log.
  match goal with
  | |- context [copy_all e ?l p ?wx] =>
      destruct (copy_all e l p wx) as [[[] w2]| |] eqn:Ec
  end; try discriminate.
  intros _. right. now apply copy_all_raised in Ec.
Qed.

Lemma exit_99_only_from_getuser_or_makedirs_witness :
  getuser readonly_dest_env = None \/
  exists p, makedirs_ok readonly_dest_env p = false.
Proof.
  apply (exit_99_only_from_getuser_or_makedirs readonly_dest_env start_world).
  vm_compute. reflexivity.
Defined.



(** ** Naming of the target folder *)

Lemma str_app_assoc s t u : (s +:+ t) +:+ u = s +:+ (t +:+ u).
Proof.
  induction s as [|c s IH]; [reflexivity|].
  change ((String c s +:+ t) +:+ u) with (String c ((s +:+ t) +:+ u)).
  change (String c s +:+ (t +:+ u)) with (String c (s +:+ (t +:+ u))).
  now rewrite IH.
Qed.

Lemma plain_name_inv name :
  plain_name name = true ->
  exists c n, name = String c n /\
    all_chars (fun c => negb (Path.is_sep c) && negb (Ascii.eqb c ":")) name = true.
Proof.
  unfold plain_name. intros [Ht Ha]%andb_true_iff.
  destruct name as [|c n]; [discriminate|]. eauto.
Qed.

Lemma rstrip_seps_plain name :
  plain_name name = true -> PathMore.rstrip_seps name = name.
Proof.
  intros (c & n & -> & Ha)%plain_name_inv. revert c Ha.
  induction n as [|c' n IH]; intros c Ha; cbn [all_chars] in Ha;
    apply andb_true_iff in Ha as [Hc Hn].
  - cbn [PathMore.rstrip_seps]. apply andb_true_iff in Hc as [Hc _].
    apply negb_true_iff in Hc. now rewrite Hc.
  - change (PathMore.rstrip_seps (String c (String c' n)))
      with (match PathMore.rstrip_seps (String c' n) with
            | EmptyString =>
                if Path.is_sep c then EmptyString else String c EmptyString
            | r => String c r
            end).
    now rewrite (IH c' Hn).
Qed.

Lemma rstrip_seps_app pre name :
  plain_name name = true ->
  PathMore.rstrip_seps (pre +:+ name) = pre +:+ name.
Proof.
  intros Hp. induction pre as [|c pre IH]; [now apply rstrip_seps_plain|].
  change (String c pre +:+ name) with (String c (pre +:+ name)).
  cbn [PathMore.rstrip_seps]. rewrite IH.
  destruct (plain_name_inv _ Hp) as (c' & n & -> & _).
  destruct pre; reflexivity.
Qed.

Lemma after_last_sep_plain name : forall cur,
  all_chars (fun c => negb (Path.is_sep c) && negb (Ascii.eqb c ":")) name = true ->
  PathMore.after_last_sep cur name = cur.
Proof.
  induction name as [|c n IH]; intros cur Ha; [reflexivity|].
  cbn [all_chars] in Ha. apply andb_true_iff in Ha as [Hc Hn].
  apply andb_true_iff in Hc as [Hc _]. apply negb_true_iff in Hc.
  cbn [PathMore.after_last_sep]. rewrite Hc. now apply IH.
Qed.

Lemma after_last_sep_app r name : forall cur,
  ends_sep r = true ->
  all_chars (fun c => negb (Path.is_sep c) && negb (Ascii.eqb c ":")) name = true ->
  PathMore.after_last_sep cur (r +:+ name) = name.
Proof.
  induction r as [|c r IH]; intros cur He Ha; [discriminate|].
  change (String c r +:+ name) with (String c (r +:+ name)).
  cbn [PathMore.after_last_sep].
  destruct r as [|c' r].
  - unfold ends_sep in He. cbn [Path.last_char] in He. rewrite He.
    change ("" +:+ name) with name. now apply after_last_sep_plain.
  - assert (ends_sep (String c' r) = true) as He' by exact He.
    destruct (Path.is_sep c); now apply IH.
Qed.

Lemma strip_drive_cons2 c1 c2 r :
  PathMore.strip_drive (String c1 (String c2 r))
  = if Ascii.eqb c2 ":" then r else String c1 (String c2 r).
Proof. destruct c2 as [[] [] [] [] [] [] [] []]; reflexivity. Qed.

Lemma is_bare_drive_cons2 c1 c2 r :
  Path.is_bare_drive (String c1 (String c2 r))
  = Ascii.eqb c2 ":" && negb (PyStr.truthy r).
Proof. destruct c2 as [[] [] [] [] [] [] [] []]; destruct r; reflexivity. Qed.

Lemma basename_plain name :
  plain_name name = true -> PathMore.basename name = name.
Proof.
  intros (c & n & -> & Ha)%plain_name_inv. unfold PathMore.basename.
  assert (PathMore.strip_drive (String c n) = String c n) as ->.
  { destruct n as [|c2 n]; [reflexivity|]. rewrite strip_drive_cons2.
    cbn [all_chars] in Ha. apply andb_true_iff in Ha as [_ Ha].
    apply andb_true_iff in Ha as [Hc2 _]. apply andb_true_iff in Hc2 as [_ Hc2].
    apply negb_true_iff in Hc2. now rewrite Hc2. }
  now apply after_last_sep_plain.
Qed.

Lemma basename_app pre name :
  ends_sep pre = true \/ Path.is_bare_drive pre = true ->
  plain_name name = true ->
  PathMore.basename (pre +:+ name) = name.
Proof.
  intros Hpre Hp. destruct (plain_name_inv _ Hp) as (n1 & n' & Hname & Ha).
  unfold PathMore.basename.
  destruct pre as [|c1 [|c2 r]].
  - destruct Hpre; discriminate.
  - destruct Hpre as [He|Hb]; [|discriminate].
    change (String c1 "" +:+ name) with (String c1 name).
    assert (PathMore.strip_drive (String c1 name) = String c1 name) as ->.
    { rewrite Hname, strip_drive_cons2. rewrite Hname in Ha.
      cbn [all_chars] in Ha. apply andb_true_iff in Ha as [Hc _].
      apply andb_true_iff in Hc as [_ Hc]. apply negb_true_iff in Hc.
      now rewrite Hc. }
    apply (after_last_sep_app (String c1 "") name); assumption.
  - change (String c1 (String c2 r) +:+ name)
      with (String c1 (String c2 (r +:+ name))).
    rewrite strip_drive_cons2. rewrite is_bare_drive_cons2 in Hpre.
    destruct (Ascii.eqb c2 ":") eqn:Hc2.
    + destruct r as [|c3 r].
      * change ("" +:+ name) with name. now apply after_last_sep_plain.
      * destruct Hpre as [He|Hb]; [|discriminate].
        apply after_last_sep_app; [exact He|exact Ha].
    + destruct Hpre as [He|Hb]; [|discriminate].
      apply (after_last_sep_app (String c1 (String c2 r)) name); assumption.
Qed.

Lemma last_char_app_single s c : Path.last_char (s +:+ String c "") = Some c.
Proof.
  induction s as [|a s IH]; [reflexivity|].
  change (String a s +:+ String c "") with (String a (s +:+ String c "")).
  destruct s as [|b s]; [reflexivity|].
  change (Path.last_char (String a (String b s +:+ String c "")))
    with (Path.last_char (String b s +:+ String c "")).
  exact IH.
Qed.

(** [os.path.join] puts a prefix before a plain name that ends with a
    separator, is a bare drive, or is empty. *)
Lemma join_prefix home name :
  exists pre, Path.join home name = pre +:+ name /\
              (pre = "" \/ ends_sep pre = true \/ Path.is_bare_drive pre = true).
Proof.
  unfold Path.join. destruct (Path.last_char home) as [c|] eqn:E.
  - destruct (Path.is_sep c) eqn:Hsep; cbn [orb].
    + exists home. split; [reflexivity|]. right; left. unfold ends_sep. now rewrite E.
    + destruct (Path.is_bare_drive home) eqn:Hb.
      * exists home. auto.
      * exists (home +:+ "\"). split; [now rewrite str_app_assoc|].
        right; left. unfold ends_sep. now rewrite last_char_app_single.
  - exists "". auto.
Qed.

(** X14.  Joining a plain folder name to the profile path and taking the
    base name again gives the name back: the copy of [<profile>\<name>] is
    made in the folder [<destination>\<name>]. *)
Theorem target_folder_keeps_name (home name dst : string) :
  plain_name name = true ->
  PathMore.basename (PathMore.rstrip_seps (Path.join home name)) = name /\
  target_of (Path.join home name) dst = Path.join dst name.
Proof.
  intros Hp.
  assert (PathMore.basename (PathMore.rstrip_seps (Path.join home name)) = name) as H.
  { destruct (join_prefix home name) as (pre & -> & Hpre).
    rewrite (rstrip_seps_app _ _ Hp).
    destruct Hpre as [->|Hpre]; [now apply basename_plain|now apply basename_app]. }
  split; [exact H|]. unfold target_of. now rewrite H.
Qed.

Lemma target_folder_keeps_name_witness :
  PathMore.basename (PathMore.rstrip_seps (Path.join "C:\Users\bob" "Documents"))
    = "Documents" /\
  target_of (Path.join "C:\Users\bob" "Documents") "Z:\\bob\BACKUP"
    = Path.join "Z:\\bob\BACKUP" "Documents".
Proof.
  apply target_folder_keeps_name. reflexivity.
Defined.

(** ** A denylisted word in the source path *)

Lemma has_skip_substring_join_l a b :
  has_skip_substring a = true -> has_skip_substring (Path.join a b) = true.
Proof.
  unfold has_skip_substring. intros (skip & Hin & Hc)%existsb_exists.
  apply existsb_exists. exists skip. split; [exact Hin|].
  now apply lower_join_contains_l.
Qed.

Lemma has_skip_substring_fold rel : forall acc,
  has_skip_substring acc = true ->
  has_skip_substring (fold_left Path.join rel acc) = true.
Proof.
  induction rel as [|d rel IH]; intros acc H; [exact H|].
  cbn [fold_left]. now apply IH, has_skip_substring_join_l.
Qed.

(** X15.  The denylist is applied to the whole path, the source folder
    included: when the path of the source folder itself contains a
    denylisted word (a user named Templeton, say), the fallback engine
    skips every file below it and copies nothing. *)
Theorem fallback_copies_nothing_below_denylisted_folder
  (e : env) (src dst : string) (w w' : world) :
  robocopy_available e = false ->
  has_skip_substring src = true ->
  copy_folder_incremental e src dst w = Ok (tt, w') ->
  dest w' = dest w.
Proof.
  intros Hfb Hsrc Hrun. destruct (source e src) as [t|] eqn:Ht.
  - destruct (fallback_run_dest e Hfb src dst t w w' Ht Hrun) as [-> _].
    apply (fold_settled_fix (visit_dir (target_of src dst))
             (settled_dir (target_of src dst)) (settled_dir_fix _)).
    apply List.Forall_forall. intros [[root rel] files] Hen.
    unfold settled_dir. cbn [fst snd]. apply List.Forall_forall.
    intros [f sf] Hf. left. cbn [fst snd].
    apply os_walk_root in Hen as (rel' & _ & Hroot). cbn [fst snd] in Hroot.
    unfold should_skip, should_skip_with.
    now rewrite Hroot, has_skip_substring_join_l by
      (now apply has_skip_substring_fold).
  - unfold copy_folder_incremental in Hrun. rewrite Ht in Hrun.
    now injection Hrun as <-.
Qed.

Lemma fallback_copies_nothing_below_denylisted_folder_witness :
  dest after_templeton_run = ∅.
Proof.
  apply (fallback_copies_nothing_below_denylisted_folder templeton_env
           "C:\Users\Templeton\Documents" "Z:\\Templeton\BACKUP"
           start_world after_templeton_run).
  - reflexivity.
  - reflexivity.
  - vm_compute. reflexivity.
Defined.

(** ** The successful run *)

Lemma find_destination_truthy os username p :
  find_destination os username = Some p -> PyStr.truthy p = true.
Proof.
  rewrite find_destination_first_reachable. unfold first_reachable.
  destruct (List.find _ _) as [c|]; [|discriminate].
  intros [= <-]. now apply join_truthy.
Qed.

Section SuccessFacts.

Variable e : env.
Hypothesis makedirs_fine : forall q, makedirs_ok e q = true.

Lemma dirs_ok_fine target entries : dirs_ok e target entries = true.
Proof.
  induction entries as [|en rest IH]; [reflexivity|].
  cbn [dirs_ok forallb]. rewrite makedirs_fine. exact IH.
Qed.

Lemma copy_folder_incremental_fine src dst w :
  exists w', copy_folder_incremental e src dst w = Ok (tt, w') /\
             clock w' = clock w.
Proof.
  unfold copy_folder_incremental.
  destruct (source e src) as [t|]; [|eexists; split; reflexivity].
  unfold bind, makedirs. rewrite makedirs_fine. unfold log.
  destruct (robocopy_available e).
  - eexists; split; reflexivity.
  - match goal with
    | |- context [fallback_copy e ?tg ?en ?wa] =>
        destruct (fallback_copy_ok e tg en (dirs_ok_fine tg en) wa) as (tr & ->)
    end.
    eexists; split; reflexivity.
Qed.

Lemma copy_all_fine srcs p : forall w,
  exists w', copy_all e srcs p w = Ok (tt, w') /\ clock w' = clock w.
Proof.
  induction srcs as [|s srcs IH]; intros w; [eexists; split; reflexivity|].
  cbn [copy_all]. unfold bind.
  destruct (copy_folder_incremental_fine s p w) as (w1 & -> & Hc1).
  destruct (IH w1) as (w2 & -> & Hc2). exists w2. split; [reflexivity|lia].
Qed.

End SuccessFacts.

(** X16.  When a source folder exists, the destination is reachable at the
    first attempt and the directories can be created, the process exits
    with 0 and has not slept: the clock is where it was at the start. *)
Theorem main_succeeds_without_waiting (e : env) (w : world) (u p : string) :
  getuser e = Some u ->
  src_folders e <> [] ->
  find_destination (dest_view e (clock w)) u = Some p ->
  (forall q, makedirs_ok e q = true) ->
  exists w', main e w = Ok (0, w') /\ exit_code e w = Some 0 /\
             clock w' = clock w.
Proof.
  intros Hu Hsf Hres Hmk.
  assert (exists w', main e w = Ok (0, w') /\ clock w' = clock w) as (w' & Hm & Hc).
  { unfold main. rewrite Hu. destruct (src_folders e) as [|s ss]; [congruence|].
    unfold wait_for_destination. unfold bind, now.
    pose proof (find_destination_truthy _ _ _ Hres) as Hp.
    rewrite (wait_loop_first_success
               (fun t => find_destination (dest_view e t) u)
               RETRY_INTERVAL_SECONDS ltac:(reflexivity) O _ _ None w p);
      [ | lia
        | rewrite Z.mul_0_l, Z.add_0_r;
          change (DRIVE_RETRY_MINUTES * 60) with 900; lia
        | intros j Hj; lia
        | now rewrite Z.mul_0_l, Z.add_0_r
        | exact Hp ].
    rewrite Hp. unfold makedirs. rewrite Hmk. unfold log. cbn [clock trace dest].
    match goal with
    | |- context [copy_all e ?l p ?wx] =>
        destruct (copy_all_fine e Hmk l p wx) as (w2 & -> & Hc2)
    end.
    exists w2. split; [reflexivity|]. rewrite Hc2. cbn [clock]. lia. }
  exists w'. split; [exact Hm|]. split; [|exact Hc].
  unfold exit_code. now rewrite Hm.
Qed.

Lemma main_succeeds_without_waiting_witness :
  exists w', main old_docs_env start_world = Ok (0, w') /\
             exit_code old_docs_env start_world = Some 0 /\
             clock w' = 0.
Proof.
  apply (main_succeeds_without_waiting old_docs_env start_world "bob"
           "\\server\Unity Exploration\IT Department\bob\BACKUP").
  - reflexivity.
  - vm_compute. discriminate.
  - reflexivity.
  - intros q. reflexivity.
Defined.

(** ** Mirrored paths *)

Lemma last_char_app a b :
  PyStr.truthy b = true -> Path.last_char (a +:+ b) = Path.last_char b.
Proof.
  intros Hb. induction a as [|c a IH]; [reflexivity|].
  change (String c a +:+ b) with (String c (a +:+ b)).
  destruct (a +:+ b) as [|c' r] eqn:E.
  - destruct a; [|discriminate E]. change ("" +:+ b) with b in E.
    rewrite E in Hb. discriminate.
  - change (Path.last_char (String c (String c' r)))
      with (Path.last_char (String c' r)). exact IH.
Qed.

Lemma bare_drive_last s :
  Path.is_bare_drive s = true -> Path.last_char s = Some ":"%char.
Proof.
  destruct s as [|c1 [|c2 r]]; try discriminate.
  rewrite is_bare_drive_cons2. intros [Hc Hr]%andb_true_iff.
  apply Ascii.eqb_eq in Hc. subst c2. destruct r; [reflexivity|discriminate].
Qed.

Lemma ends_plain_truthy x : ends_plain x = true -> PyStr.truthy x = true.
Proof. destruct x; [discriminate|reflexivity]. Qed.

Lemma join_after_plain pre x d :
  ends_plain x = true ->
  Path.join (pre +:+ x) d = pre +:+ (x +:+ "\" +:+ d).
Proof.
  intros Hx. pose proof (ends_plain_truthy _ Hx) as Ht.
  unfold Path.join. rewrite (last_char_app pre x Ht).
  unfold ends_plain in Hx. destruct (Path.last_char x) as [c|] eqn:E; [|discriminate].
  apply andb_true_iff in Hx as [Hs Hc]. apply negb_true_iff in Hs, Hc.
  rewrite Hs. cbn [orb].
  destruct (Path.is_bare_drive (pre +:+ x)) eqn:Hb.
  - apply bare_drive_last in Hb. rewrite (last_char_app pre x Ht), E in Hb.
    injection Hb as ->. discriminate Hc.
  - apply str_app_assoc.
Qed.

Lemma all_chars_last P s c :
  all_chars P s = true -> Path.last_char s = Some c -> P c = true.
Proof.
  induction s as [|a s IH]; [discriminate|].
  cbn [all_chars]. intros [Ha Hs]%andb_true_iff.
  destruct s as [|b s]; [now intros [= <-]|].
  change (Path.last_char (String a (String b s))) with (Path.last_char (String b s)).
  now apply IH.
Qed.

Lemma plain_name_ends_plain d : plain_name d = true -> ends_plain d = true.
Proof.
  intros (c & n & -> & Ha)%plain_name_inv. unfold ends_plain.
  destruct (Path.last_char (String c n)) as [l|] eqn:E.
  - exact (all_chars_last _ _ _ Ha E).
  - now apply last_char_cons in E.
Qed.

Lemma ends_plain_app x d : plain_name d = true -> ends_plain (x +:+ "\" +:+ d) = true.
Proof.
  intros Hd. pose proof (plain_name_ends_plain _ Hd) as He.
  unfold ends_plain in *.
  rewrite <- str_app_assoc, (last_char_app _ d (ends_plain_truthy d He)).
  exact He.
Qed.

Lemma fold_join_concat pre rel : forall x,
  ends_plain x = true ->
  Forall (fun d => plain_name d = true) rel ->
  fold_left Path.join rel (pre +:+ x) = pre +:+ String.concat "\" (x :: rel).
Proof.
  induction rel as [|d rel IH]; intros x Hx Hrel; [reflexivity|].
  inversion Hrel as [|? ? Hd Hrest]; subst.
  cbn [fold_left]. rewrite (join_after_plain pre x d Hx).
  rewrite (IH (x +:+ "\" +:+ d) (ends_plain_app x d Hd) Hrest).
  f_equal. destruct rel as [|d2 rel]; [reflexivity|].
  change (String.concat "\" ((x +:+ "\" +:+ d) :: d2 :: rel))
    with ((x +:+ "\" +:+ d) +:+ "\" +:+ String.concat "\" (d2 :: rel)).
  change (String.concat "\" (x :: d :: d2 :: rel))
    with (x +:+ "\" +:+ (d +:+ "\" +:+ String.concat "\" (d2 :: rel))).
  now rewrite !str_app_assoc.
Qed.

(** The prefix that [os.path.join] puts before its second argument depends
    on the first argument only. *)
Lemma join_uniform a : exists pre, forall y, Path.join a y = pre +:+ y.
Proof.
  unfold Path.join. destruct (Path.last_char a) as [c|].
  - destruct (Path.is_sep c || Path.is_bare_drive a).
    + exists a. reflexivity.
    + exists (a +:+ "\"). intros y. now rewrite str_app_assoc.
  - exists "". reflexivity.
Qed.

Lemma relpath_not_dot d rel :
  plain_name d = true -> d <> "." ->
  String.eqb (PathMore.relpath (d :: rel)) "." = false.
Proof.
  intros Hp Hd. apply String.eqb_neq. unfold PathMore.relpath.
  destruct rel as [|d2 rel]; [exact Hd|].
  change (String.concat "\" (d :: d2 :: rel))
    with (d +:+ "\" +:+ String.concat "\" (d2 :: rel)).
  destruct (plain_name_inv _ Hp) as (c & n & -> & _).
  change (String c n +:+ "\" +:+ String.concat "\" (d2 :: rel))
    with (String c (n +:+ "\" +:+ String.concat "\" (d2 :: rel))).
  intros [= _ H]. destruct n; discriminate H.
Qed.

(** X17.  The fallback engine mirrors the tree: for the directory names that
    [os.walk] yields, the source path and the destination path of a file
    are built by the same joins, from the source folder and from the target
    folder. *)
Theorem fallback_mirrors_relative_path
  (src target : string) (t : tree)
  (root : string) (rel : list string) (files : list (string * srcfile)) (f : string) :
  walk_names rel ->
  In (root, rel, files) (os_walk src [] t) ->
  Path.join root f = walk_path src rel f /\
  Path.join (target_root_of target rel) f = walk_path target rel f.
Proof.
  intros Hnames Hen. split; [now apply (os_walk_paths t src root rel files)|].
  unfold walk_path. f_equal. unfold target_root_of.
  destruct rel as [|d rel]; [reflexivity|].
  inversion Hnames as [|? ? [Hd Hdot] Hrest]; subst.
  rewrite (relpath_not_dot d rel Hd Hdot).
  destruct (join_uniform target) as (pre & Hpre).
  cbn [fold_left]. rewrite !Hpre. unfold PathMore.relpath.
  symmetry. apply fold_join_concat; [now apply plain_name_ends_plain|].
  eapply Forall_impl; [exact Hrest|]. now intros x [Hx _].
Qed.

Lemma fallback_mirrors_relative_path_witness :
  Path.join "C:\Users\bob\Documents\Work" "plan.doc"
    = walk_path "C:\Users\bob\Documents" ["Work"] "plan.doc" /\
  Path.join (target_root_of "Z:\\bob\BACKUP\Documents" ["Work"]) "plan.doc"
    = walk_path "Z:\\bob\BACKUP\Documents" ["Work"] "plan.doc".
Proof.
  apply (fallback_mirrors_relative_path "C:\Users\bob\Documents"
           "Z:\\bob\BACKUP\Documents" docs_tree
           "C:\Users\bob\Documents\Work" ["Work"]
           [("plan.doc", SrcFile true (Some (FStat 200 4096)) true)] "plan.doc").
  - repeat constructor. discriminate.
  - right. left. reflexivity.
Defined.
